(** * google-shortcuts: keyboard navigation over a search-results page

    A shallow embedding of the content script in its two revisions:
    [content.js] (module [Clamped]: the cursor saturates at the ends of the
    list, [g]/[G] jumps, refined refresh policy) and the earlier revision
    (module [Wrap]: the cursor wraps modulo the length, every refresh
    re-highlights).

    The script talks to the browser through the DOM.  The part of the DOM it
    reads is modelled by immutable element values (tag, [lang] attribute,
    first anchor, parent link); the part it writes is modelled by a store of
    marked elements plus a chronological trace of the calls it makes
    ([console.error], scrolling, navigation, class-list updates). *)

From Stdlib Require Import ZArith QArith String List Bool Lia.
From stdpp Require Import base list.
Import ListNotations.

Local Open Scope string_scope.
Local Open Scope list_scope.
Local Open Scope Z_scope.

(** ** The DOM as the script sees it *)

(** Object identity of a DOM node ([===] on elements). *)
Definition NodeId := nat.
Bind Scope nat_scope with NodeId.

(** An element handle.  [lang] is [getAttribute("lang")] ([None] is [null]),
    [anchor] is [querySelector("a")] reduced to the [href] of the link it
    returns ([None] is [null]), [isConnected] is the DOM property of the same
    name (whether the element is in the document; only such elements are
    returned by a query on [document]), [parentElement] is the DOM property
    of the same name.  The type is inductive, so every parent chain is
    finite. *)
#[warnings="-register-all"]
Inductive HTMLElement : Type := mkElement {
  uid : NodeId;
  tagName : string;
  lang : option string;
  anchor : option string;
  isConnected : bool;
  parentElement : option HTMLElement
}.

(** [a === b] on element handles. *)
Definition same_node (a : NodeId) (b : HTMLElement) : bool := Nat.eqb a (uid b).

(** The container [#search], seen through the one query the script runs on
    it: [querySelectorAll("h3")], which lists the headings of the subtree in
    document order. *)
Record HTMLDivElement := mkContainer {
  self : HTMLElement;
  querySelectorAll_h3 : list HTMLElement
}.

Record DOMRect := mkRect { top : Q; bottom : Q }.

(** What the browser answers at the time a handler runs. *)
Record Browser := mkBrowser {
  activeElement : option HTMLElement;      (* document.activeElement *)
  Date_now : Z;                            (* Date.now(), in milliseconds; one
                                              reading for the whole handler run *)
  innerHeight : Q;                         (* window.innerHeight *)
  getBoundingClientRect : HTMLElement -> DOMRect
}.

Record KeyboardEvent := mkEvent {
  key : string;
  metaKey : bool;
  ctrlKey : bool;
  shiftKey : bool
}.

(** Calls with an effect outside the script's own variables, in the order
    the script makes them. *)
Inductive Effect :=
| console_error (msg : string) (args : list Z)
| console_log (el : NodeId)
| preventDefault
| scrollTo_top
| scrollIntoView (el : NodeId)
| classList_removed (el : NodeId)
| classList_added (el : NodeId)
| window_open (href : string)
| location_href (href : string).

(** An effect that changes what the user sees: scrolling or a marker update. *)
Definition is_dom_write (e : Effect) : bool :=
  match e with
  | scrollTo_top | scrollIntoView _ | classList_removed _ | classList_added _ => true
  | _ => false
  end.

Definition is_navigation (e : Effect) : bool :=
  match e with
  | window_open _ | location_href _ => true
  | _ => false
  end.

Definition is_report (e : Effect) : bool :=
  match e with
  | console_error _ _ => true
  | _ => false
  end.

(** [arr[i]] for a number [i] that holds an integer: [undefined] ([None])
    outside [0 .. length-1]. *)
Definition js_index {A} (arr : list A) (i : Z) : option A :=
  if 0 <=? i then arr !! Z.to_nat i else None.

Definition Qlt_bool (a b : Q) : bool := negb (Qle_bool b a).

Definition key_in (ev : KeyboardEvent) (ks : list string) : bool :=
  existsb (String.eqb (key ev)) ks.

(** [(document.activeElement && document.activeElement.tagName) ?? ""] *)
Definition activeElementName (br : Browser) : string :=
  match activeElement br with
  | Some el => tagName el
  | None => ""
  end.

Definition inside_input (br : Browser) : bool :=
  String.eqb (activeElementName br) "INPUT" || String.eqb (activeElementName br) "TEXTAREA".

(** ** The result extractor (the same text in both revisions) *)

(** The [while] loop of [extractSearchResults]: climb from [highestParent]
    until an element has a [lang] attribute; at an element without parent,
    report and leave the loop.  Returns the final [highestParent] and what
    was reported. *)
Fixpoint climb (highestParent : HTMLElement) : HTMLElement * list Effect :=
  match lang highestParent with
  | Some _ => (highestParent, [])
  | None =>
      match parentElement highestParent with
      | None => (highestParent, [console_error "Parent element is null" []])
      | Some parent => climb parent
      end
  end.

(** The body of the [for] loop over the headings, threading [results] and
    the console. *)
Fixpoint extract_loop (headings : list HTMLElement)
    (results : list HTMLElement) (out : list Effect)
  : list HTMLElement * list Effect :=
  match headings with
  | [] => (results, out)
  | heading :: rest =>
      let '(highestParent, reported) := climb heading in
      if negb (String.eqb (tagName highestParent) "DIV")
      then extract_loop rest results (out ++ reported)
      else extract_loop rest (results ++ [highestParent]) (out ++ reported)
  end.

Definition extractSearchResults (searchElement : HTMLDivElement)
  : list HTMLElement * list Effect :=
  extract_loop (querySelectorAll_h3 searchElement) [] [].

(** ** The document the script writes to *)

(** The highlight class, and the calls made.  [marked] is what
    [document.querySelectorAll(".gscss-highlight")] returns: the elements of
    the document that carry the class; the script reads the class in no
    other way.  [marked_outside] are the elements that carry the class but
    are not in the document, which the query does not return.  [trace] is
    the chronological list of effectful calls made so far. *)
Record Document := mkDocument {
  marked : list NodeId;
  marked_outside : list NodeId;
  trace : list Effect
}.

Definition emit (e : Effect) (d : Document) : Document :=
  {| marked := marked d; marked_outside := marked_outside d; trace := trace d ++ [e] |}.

Definition emit_all (es : list Effect) (d : Document) : Document :=
  {| marked := marked d; marked_outside := marked_outside d; trace := trace d ++ es |}.

(** [el.classList.remove("gscss-highlight")] *)
Definition classList_remove (el : NodeId) (d : Document) : Document :=
  {| marked := List.filter (fun x => negb (Nat.eqb x el)) (marked d);
     marked_outside := List.filter (fun x => negb (Nat.eqb x el)) (marked_outside d);
     trace := trace d ++ [classList_removed el] |}.

(** A class list is a set: adding a class twice leaves one. *)
Definition with_class (el : NodeId) (l : list NodeId) : list NodeId :=
  if existsb (Nat.eqb el) l then l else l ++ [el].

(** [element.classList.add("gscss-highlight")]: the element carries the
    class from then on; the query on [document] returns it only if it is in
    the document. *)
Definition classList_add (element : HTMLElement) (d : Document) : Document :=
  {| marked :=
       if isConnected element then with_class (uid element) (marked d) else marked d;
     marked_outside :=
       if isConnected element then marked_outside d
       else with_class (uid element) (marked_outside d);
     trace := trace d ++ [classList_added (uid element)] |}.

(** [highlighted.length === 1 && highlighted[0] === element] *)
Definition already_highlighted (highlighted : list NodeId) (element : HTMLElement) : bool :=
  Nat.eqb (length highlighted) 1 &&
  match highlighted !! 0%nat with
  | Some first => same_node first element
  | None => false
  end.

(** [for (const element of highlighted) element.classList.remove(...)],
    over the static list the query returned. *)
Definition remove_highlights (highlighted : list NodeId) (d : Document) : Document :=
  fold_left (fun acc el => classList_remove el acc) highlighted d.

(** The tail of [highlightSelected], the same text in both revisions: query
    the marked elements, leave if the only one is [element], else unmark
    them all and mark [element]. *)
Definition update_marker (element : HTMLElement) (d : Document) : Document :=
  let highlighted := marked d in
  if already_highlighted highlighted element then d
  else classList_add element (remove_highlights highlighted d).

(** What the query returns after the marker update, from what it returned
    before: nothing changes when the entry was the one marked element;
    otherwise all are unmarked, and the entry shows up only if it is in the
    document. *)
Definition marked_after (element : HTMLElement) (highlighted : list NodeId)
  : list NodeId :=
  if decide (highlighted = [uid element]) then highlighted
  else if isConnected element then [uid element] else [].

(** [boundingRect.top < 0 || boundingRect.bottom > window.innerHeight] *)
Definition outside_viewport (br : Browser) (element : HTMLElement) : bool :=
  let boundingRect := getBoundingClientRect br element in
  Qlt_bool (top boundingRect) 0 || Qlt_bool (innerHeight br) (bottom boundingRect).

(** ** content.js: the clamped revision *)

Module Clamped.

(** [state.selectedIndex] only ever receives [0], [length - 1] or the
    [clamp] of an integer, so it is an integer throughout. *)
Record State := mkState {
  searchResults : list HTMLElement;
  selectedIndex : Z
}.

(** The script's variables and the document it acts on. *)
Record Page := mkPage {
  state : State;
  lastGKeyPress : Z;
  document : Document
}.

Definition init (d : Document) : Page :=
  {| state := {| searchResults := []; selectedIndex := 0 |};
     lastGKeyPress := 0;
     document := d |}.

Definition results (p : Page) : list HTMLElement := searchResults (state p).
Definition index (p : Page) : Z := selectedIndex (state p).
Definition size (p : Page) : Z := Z.of_nat (length (results p)).

Definition set_selectedIndex (i : Z) (p : Page) : Page :=
  {| state := {| searchResults := results p; selectedIndex := i |};
     lastGKeyPress := lastGKeyPress p;
     document := document p |}.

Definition set_searchResults (l : list HTMLElement) (p : Page) : Page :=
  {| state := {| searchResults := l; selectedIndex := index p |};
     lastGKeyPress := lastGKeyPress p;
     document := document p |}.

Definition set_lastGKeyPress (t : Z) (p : Page) : Page :=
  {| state := state p; lastGKeyPress := t; document := document p |}.

Definition on_document (f : Document -> Document) (p : Page) : Page :=
  {| state := state p; lastGKeyPress := lastGKeyPress p; document := f (document p) |}.

Definition clamp (value min max : Z) : Z := Z.max min (Z.min value max).

Definition highlightSelected (br : Browser) (p : Page) : Page :=
  if size p =? 0 then p
  else
    match js_index (results p) (index p) with
    | None =>
        on_document
          (emit (console_error "Selected element is undefined" [size p; index p])) p
    | Some element =>
        let p :=
          if index p =? 0 then on_document (emit scrollTo_top) p
          else if outside_viewport br element
               then on_document (emit (scrollIntoView (uid element))) p
               else p in
        on_document (update_marker element) p
    end.

Definition handleKeyDown (br : Browser) (event : KeyboardEvent) (p : Page) : Page :=
  if inside_input br then p
  else if key_in event ["j"; "ArrowDown"] then
    let p := on_document (emit preventDefault) p in
    let p := set_selectedIndex (clamp (index p + 1) 0 (size p - 1)) p in
    highlightSelected br p
  else if key_in event ["k"; "ArrowUp"] then
    let p := on_document (emit preventDefault) p in
    let p := set_selectedIndex (clamp (index p - 1) 0 (size p - 1)) p in
    highlightSelected br p
  else if key_in event [" "; "Enter"] then
    let p := on_document (emit preventDefault) p in
    match js_index (results p) (index p) with
    | None => on_document (emit (console_error "Selected element is undefined" [])) p
    | Some element =>
        match anchor element with
        | None => on_document (emit (console_error "Link not found" [])) p
        | Some href =>
            if metaKey event then on_document (emit (window_open href)) p
            else on_document (emit (location_href href)) p
        end
    end
  else if key_in event ["G"; "g"] then
    if metaKey event || ctrlKey event then p
    else
      let p := on_document (emit preventDefault) p in
      if shiftKey event then
        highlightSelected br (set_selectedIndex (size p - 1) p)
      else if Date_now br <? lastGKeyPress p + 1000 then
        highlightSelected br (set_selectedIndex 0 p)
      else set_lastGKeyPress (Date_now br) p
  else p.

(** [let shouldHighlight = state.searchResults.length <= state.selectedIndex] *)
Definition shouldHighlight (p : Page) : bool := size p <=? index p.

Definition handleSearchResultsChanged (br : Browser)
    (searchElement : HTMLDivElement) (p : Page) : Page :=
  let '(searchResults, reported) := extractSearchResults searchElement in
  let p := on_document (emit_all reported) p in
  let shouldHighlight := shouldHighlight p in
  let p := set_searchResults searchResults p in
  if shouldHighlight then highlightSelected br p else p.

End Clamped.

(** ** The earlier revision: the wrapping cursor *)

Module Wrap.

(** A JavaScript number as this revision produces it: an integer, or [NaN]
    once a remainder has been taken by a zero length.  Negative zero is
    identified with zero: both index the first entry and compare equal. *)
Inductive number := Num (z : Z) | NaN.

Definition js_add (a b : number) : number :=
  match a, b with Num x, Num y => Num (x + y) | _, _ => NaN end.

Definition js_sub (a b : number) : number :=
  match a, b with Num x, Num y => Num (x - y) | _, _ => NaN end.

(** [a % b]: the remainder has the sign of the dividend; by zero it is [NaN]. *)
Definition js_rem (a b : number) : number :=
  match a, b with
  | Num x, Num y => if y =? 0 then NaN else Num (Z.rem x y)
  | _, _ => NaN
  end.

(** [arr[n]] *)
Definition at_number {A} (arr : list A) (n : number) : option A :=
  match n with
  | Num z => js_index arr z
  | NaN => None
  end.

Record State := mkState {
  searchResults : list HTMLElement;
  selectedIndex : number
}.

Record Page := mkPage {
  state : State;
  document : Document
}.

Definition init (d : Document) : Page :=
  {| state := {| searchResults := []; selectedIndex := Num 0 |}; document := d |}.

Definition results (p : Page) : list HTMLElement := searchResults (state p).
Definition index (p : Page) : number := selectedIndex (state p).
Definition size (p : Page) : number := Num (Z.of_nat (length (results p))).

Definition set_selectedIndex (i : number) (p : Page) : Page :=
  {| state := {| searchResults := results p; selectedIndex := i |};
     document := document p |}.

Definition set_searchResults (l : list HTMLElement) (p : Page) : Page :=
  {| state := {| searchResults := l; selectedIndex := index p |};
     document := document p |}.

Definition on_document (f : Document -> Document) (p : Page) : Page :=
  {| state := state p; document := f (document p) |}.

Definition highlightSelected (br : Browser) (p : Page) : Page :=
  match at_number (results p) (index p) with
  | None => on_document (emit (console_error "Selected element is undefined" [])) p
  | Some element =>
      let p := on_document (emit (console_log (uid element))) p in
      let p :=
        if outside_viewport br element
        then on_document (emit (scrollIntoView (uid element))) p
        else p in
      on_document (update_marker element) p
  end.

Definition handleKeyDown (br : Browser) (event : KeyboardEvent) (p : Page) : Page :=
  if inside_input br then p
  else if key_in event ["j"; "ArrowDown"] then
    let p := on_document (emit preventDefault) p in
    let p := set_selectedIndex (js_rem (js_add (index p) (Num 1)) (size p)) p in
    highlightSelected br p
  else if key_in event ["k"; "ArrowUp"] then
    let p := on_document (emit preventDefault) p in
    let p :=
      set_selectedIndex
        (js_rem (js_add (js_sub (index p) (Num 1)) (size p)) (size p)) p in
    highlightSelected br p
  else if key_in event [" "; "Enter"] then
    let p := on_document (emit preventDefault) p in
    match at_number (results p) (index p) with
    | None => on_document (emit (console_error "Selected element is undefined" [])) p
    | Some element =>
        match anchor element with
        | None => on_document (emit (console_error "Link not found" [])) p
        | Some href =>
            if metaKey event then on_document (emit (window_open href)) p
            else on_document (emit (location_href href)) p
        end
    end
  else p.

Definition handleSearchResultsChanged (br : Browser)
    (searchElement : HTMLDivElement) (p : Page) : Page :=
  let '(searchResults, reported) := extractSearchResults searchElement in
  let p := on_document (emit_all reported) p in
  let p := set_searchResults searchResults p in
  highlightSelected br p.

End Wrap.

(** ** Vocabulary of the properties *)

(** The keys bound to [next] and [prev]. *)
Definition next_key (ev : KeyboardEvent) : bool := key_in ev ["j"; "ArrowDown"].
Definition prev_key (ev : KeyboardEvent) : bool := key_in ev ["k"; "ArrowUp"].
Definition move_key (ev : KeyboardEvent) : bool := next_key ev || prev_key ev.

(** A key press as the handler receives it: the browser's answers at that
    moment and the event. *)
Definition KeyPress : Type := Browser * KeyboardEvent.

(** [0 <= selectedIndex < results.length] in the clamped revision. *)
Definition clamped_in_range (p : Clamped.Page) : Prop :=
  0 <= Clamped.index p < Clamped.size p.

(** The same in the wrapping revision, where the index must also be a
    proper number. *)
Definition wrap_in_range (p : Wrap.Page) : Prop :=
  match Wrap.index p with
  | Wrap.Num i => 0 <= i < Z.of_nat (length (Wrap.results p))
  | Wrap.NaN => False
  end.

(** The handler run on a sequence of key presses, first press first. *)
Definition clamped_presses (ks : list KeyPress) (p : Clamped.Page) : Clamped.Page :=
  fold_left (fun q k => Clamped.handleKeyDown (fst k) (snd k) q) ks p.

Definition wrap_presses (ks : list KeyPress) (p : Wrap.Page) : Wrap.Page :=
  fold_left (fun q k => Wrap.handleKeyDown (fst k) (snd k) q) ks p.

(** The keys bound to [activate], and the [g]/[G] presses that reach the
    jump code: no meta, no ctrl; [shift] tells [last] from [first]. *)
Definition activate_key (ev : KeyboardEvent) : bool := key_in ev [" "; "Enter"].

Definition g_key (ev : KeyboardEvent) : bool :=
  key_in ev ["G"; "g"] && negb (metaKey ev) && negb (ctrlKey ev).

Definition last_key (ev : KeyboardEvent) : bool := g_key ev && shiftKey ev.
Definition first_key (ev : KeyboardEvent) : bool := g_key ev && negb (shiftKey ev).

(** The page right after a refresh has logged what the extractor reported
    and replaced the result list, before any highlight. *)
Definition clamped_refreshed (searchElement : HTMLDivElement) (p : Clamped.Page)
  : Clamped.Page :=
  Clamped.set_searchResults (fst (extractSearchResults searchElement))
    (Clamped.on_document (emit_all (snd (extractSearchResults searchElement))) p).

Definition wrap_refreshed (searchElement : HTMLDivElement) (p : Wrap.Page)
  : Wrap.Page :=
  Wrap.set_searchResults (fst (extractSearchResults searchElement))
    (Wrap.on_document (emit_all (snd (extractSearchResults searchElement))) p).

(** The calls of a trace that scroll, mark or unmark, and those that
    navigate. *)
Definition dom_writes (tr : list Effect) : list Effect := List.filter is_dom_write tr.
Definition navigations (tr : list Effect) : list Effect := List.filter is_navigation tr.
Definition reports (tr : list Effect) : list Effect := List.filter is_report tr.

(** A handler run from document [d] to [d'] that did not act: the same
    elements are marked, and the trace gained no scroll, no marker update
    and no navigation. *)
Definition inert (d d' : Document) : Prop :=
  marked d' = marked d /\
  dom_writes (trace d') = dom_writes (trace d) /\
  navigations (trace d') = navigations (trace d).

(** The report both revisions make when the selected entry is missing. *)
Definition undefined_report (args : list Z) : Effect :=
  console_error "Selected element is undefined" args.

(** Two pages of the clamped revision that agree on the selection: the
    same result list, the same cursor, the same marked elements. *)
Definition same_selection (p q : Clamped.Page) : Prop :=
  Clamped.state p = Clamped.state q /\
  marked (Clamped.document p) = marked (Clamped.document q).

(** The chain the [while] loop of the extractor walks: the heading itself,
    its parent, and so on up to the element without parent. *)
Fixpoint ancestors_or_self (e : HTMLElement) : list HTMLElement :=
  e :: match parentElement e with
       | Some parent => ancestors_or_self parent
       | None => []
       end.

Definition has_lang (e : HTMLElement) : bool :=
  match lang e with Some _ => true | None => false end.

Definition is_div (e : HTMLElement) : bool := String.eqb (tagName e) "DIV".

(** The top of the chain: the element without parent. *)
Definition chain_root (e : HTMLElement) : HTMLElement :=
  List.last (ancestors_or_self e) e.

(** The entry one heading contributes, in the words of the design: the
    nearest element of its chain that carries [lang], kept when it is a
    [DIV]; nothing when no element of the chain carries [lang]. *)
Definition entry_by_design (heading : HTMLElement) : option HTMLElement :=
  match List.find has_lang (ancestors_or_self heading) with
  | Some block => if is_div block then Some block else None
  | None => None
  end.

(** The entry one heading contributes in the code: the element the climb
    stops at, kept when it is a [DIV]. *)
Definition entry_of (heading : HTMLElement) : option HTMLElement :=
  let highestParent := fst (climb heading) in
  if is_div highestParent then Some highestParent else None.

(** The marker updates among the calls of a trace. *)
Definition is_marker_update (e : Effect) : bool :=
  match e with
  | classList_removed _ | classList_added _ => true
  | _ => false
  end.

Definition marker_updates (tr : list Effect) : list Effect :=
  List.filter is_marker_update tr.

(** What a completed highlight run achieves, from document [d] to [d']
    with [element] the selected entry.  Among the elements of the document
    at most [element] is marked, and it is when it is in the document;
    elements outside the document that carry the class keep it.  If the
    query returned exactly [element], no class list is touched; otherwise
    the run unmarks every element the query returned and then calls
    [classList.add] on [element]. *)
Definition highlight_outcome (element : HTMLElement) (d d' : Document) : Prop :=
  marked d' = marked_after element (marked d) /\
  (forall x, In x (marked d') -> x = uid element) /\
  (isConnected element = true -> marked d' = [uid element]) /\
  (forall x, In x (marked_outside d) -> ~ In x (marked d) -> In x (marked_outside d')) /\
  (marked d = [uid element] ->
     marker_updates (trace d') = marker_updates (trace d)) /\
  (marked d <> [uid element] ->
     marker_updates (trace d') =
     marker_updates (trace d) ++
     map classList_removed (marked d) ++ [classList_added (uid element)]).

(** ** Sample pages, used to run the handlers on concrete inputs *)

(** The document element: [<html lang="en">], no parent. *)
Definition html_root : HTMLElement :=
  mkElement 0 "HTML" (Some "en") None true None.

(** A result block [<div lang="en">] under the root, holding a link. *)
Definition result_block (n : NodeId) (href : string) : HTMLElement :=
  mkElement n "DIV" (Some "en") (Some href) true (Some html_root).

(** A result block without any link inside. *)
Definition linkless_block (n : NodeId) : HTMLElement :=
  mkElement n "DIV" (Some "en") None true (Some html_root).

(** The heading [<h3>] of a block. *)
Definition heading_of (n : NodeId) (block : HTMLElement) : HTMLElement :=
  mkElement n "H3" None None true (Some block).

Definition five_results : list HTMLElement :=
  [result_block 1 "https://a.example/"; result_block 2 "https://b.example/";
   result_block 3 "https://c.example/"; result_block 4 "https://d.example/";
   result_block 5 "https://e.example/"].

(** Focus on the page body, every element inside an 800px viewport, the
    clock at [now]. *)
Definition browser_at (now : Z) : Browser :=
  {| activeElement := Some (mkElement 100 "BODY" None None true (Some html_root));
     Date_now := now;
     innerHeight := 800%Q;
     getBoundingClientRect := fun _ => mkRect 100%Q 200%Q |}.

Definition press (k : string) : KeyboardEvent :=
  {| key := k; metaKey := false; ctrlKey := false; shiftKey := false |}.

Definition shift_press (k : string) : KeyboardEvent :=
  {| key := k; metaKey := false; ctrlKey := false; shiftKey := true |}.

Definition blank : Document := {| marked := []; marked_outside := []; trace := [] |}.

(** A container whose headings sit one in each of [blocks]. *)
Definition container_of (blocks : list HTMLElement) : HTMLDivElement :=
  mkContainer (mkElement 50 "DIV" None None true (Some html_root))
    (map (fun block => heading_of (200 + uid block) block) blocks).

(** The container after the page has taken it out of the document: a
    [DIV] without parent and without [lang], holding one bare heading. *)
Definition detached_search : HTMLDivElement :=
  let search := mkElement 1 "DIV" None None false None in
  mkContainer search [mkElement 2 "H3" None None false (Some search)].

Definition clamped_page (l : list HTMLElement) (i : Z) (d : Document) : Clamped.Page :=
  {| Clamped.state := {| Clamped.searchResults := l; Clamped.selectedIndex := i |};
     Clamped.lastGKeyPress := 0;
     Clamped.document := d |}.

Definition wrap_page (l : list HTMLElement) (i : Wrap.number) (d : Document) : Wrap.Page :=
  {| Wrap.state := {| Wrap.searchResults := l; Wrap.selectedIndex := i |};
     Wrap.document := d |}.

(** ** Start-up: waiting for the container, then [main] (the same text in
    both revisions) *)

(** A node as [waitForSearchElement] inspects it. *)
Record Node := mkNode {
  node_uid : NodeId;
  is_HTMLDivElement : bool;          (* node instanceof HTMLDivElement *)
  node_id : string                   (* node.id *)
}.

(** The promise made by [Promise.withResolvers()]: pending, or settled with
    the container or with [null] ([None]). *)
Inductive Promise := Pending | Resolved (value : option Node).

(** [resolve(value)]: settles a pending promise; on a settled one it does
    nothing. *)
Definition resolve (value : option Node) (pr : Promise) : Promise :=
  match pr with
  | Pending => Resolved value
  | Resolved _ => pr
  end.

(** The variables of one call of [waitForSearchElement]: the promise, whether
    the observer on [document.documentElement] is connected, and what was
    written to the console. *)
Record Waiting := mkWaiting {
  promise : Promise;
  observing : bool;
  console : list Effect
}.

(** [mutation.addedNodes] *)
Definition MutationRecord : Type := list Node.

(** The body of the inner [for] loop of the observer callback. *)
Definition inspect (node : Node) (w : Waiting) : Waiting :=
  if negb (is_HTMLDivElement node) then w
  else if String.eqb (node_id node) "search" then
    {| promise := resolve (Some node) (promise w);
       observing := false;
       console := console w |}
  else w.

(** The observer callback: both loops run to their end, whatever was found. *)
Definition observer_callback (mutationList : list MutationRecord) (w : Waiting)
  : Waiting :=
  fold_left
    (fun w mutation => fold_left (fun w node => inspect node w) mutation w)
    mutationList w.

(** The browser hands a batch of records to a connected observer only. *)
Definition deliver (mutationList : list MutationRecord) (w : Waiting) : Waiting :=
  if observing w then observer_callback mutationList w else w.

(** [waitForSearchElement()] up to its [return]: [alreadyExists] is the
    answer of [document.getElementById("search")]. *)
Definition waitForSearchElement (alreadyExists : option Node) : Waiting :=
  let w := {| promise := Pending; observing := true; console := [] |} in
  match alreadyExists with
  | Some found =>
      if is_HTMLDivElement found then
        {| promise := resolve (Some found) (promise w);
           observing := false;
           console := console w |}
      else
        {| promise := resolve None (promise w);
           observing := false;
           console := console w ++ [console_error "Expected search element to be a div" []] |}
  | None => w
  end.

(** Where [main] stands: suspended at its [await], returned after the
    report "Search element not found", or past the registration of the key
    listener and of the observer on [searchElement]. *)
Inductive Phase := Awaiting | GaveUp | Listening (searchElement : Node).

(** What the event loop delivers to the script: a batch of records for the
    observer on [document.documentElement], a [keydown] event together with
    the browser's answers at that moment, or a mutation below the container,
    with the container as it is then. *)
Inductive PageEvent :=
| DocumentMutated (mutationList : list MutationRecord)
| KeyPressed (br : Browser) (event : KeyboardEvent)
| ContainerMutated (br : Browser) (searchElement : HTMLDivElement).

Section Main.

(** [main] is the same in both revisions; it is stated over the page type
    and the two handlers of a revision. *)
Context {Page : Type}.
Variable handleKeyDown : Browser -> KeyboardEvent -> Page -> Page.
Variable handleSearchResultsChanged : Browser -> HTMLDivElement -> Page -> Page.
Variable console_error_on : string -> Page -> Page.

Record Script := mkScript {
  waiting : Waiting;
  phase : Phase;
  page : Page
}.

(** The part of [main] after the [await]: it runs once, when the promise
    has settled. *)
Definition resume (s : Script) : Script :=
  match phase s, promise (waiting s) with
  | Awaiting, Resolved None =>
      {| waiting := waiting s;
         phase := GaveUp;
         page := console_error_on "Search element not found" (page s) |}
  | Awaiting, Resolved (Some searchElement) =>
      {| waiting := waiting s; phase := Listening searchElement; page := page s |}
  | _, _ => s
  end.

(** [main()], run at script load on the initial page [p0]. *)
Definition main (alreadyExists : option Node) (p0 : Page) : Script :=
  resume {| waiting := waitForSearchElement alreadyExists;
            phase := Awaiting;
            page := p0 |}.

(** One turn of the event loop. *)
Definition dispatch (e : PageEvent) (s : Script) : Script :=
  match e with
  | DocumentMutated mutationList =>
      resume {| waiting := deliver mutationList (waiting s);
                phase := phase s;
                page := page s |}
  | KeyPressed br event =>
      match phase s with
      | Listening _ =>
          {| waiting := waiting s; phase := phase s;
             page := handleKeyDown br event (page s) |}
      | _ => s
      end
  | ContainerMutated br searchElement =>
      match phase s with
      | Listening _ =>
          {| waiting := waiting s; phase := phase s;
             page := handleSearchResultsChanged br searchElement (page s) |}
      | _ => s
      end
  end.

Definition run (events : list PageEvent) (s : Script) : Script :=
  fold_left (fun s e => dispatch e s) events s.

End Main.

(** [main] of [content.js] and of the earlier revision. *)
Definition clamped_main (alreadyExists : option Node) (d : Document)
  : Script (Page := Clamped.Page) :=
  main (fun msg => Clamped.on_document (emit (console_error msg []))) alreadyExists
       (Clamped.init d).

Definition clamped_dispatch : PageEvent -> Script -> Script :=
  dispatch Clamped.handleKeyDown Clamped.handleSearchResultsChanged
    (fun msg => Clamped.on_document (emit (console_error msg []))).

Definition clamped_run : list PageEvent -> Script -> Script :=
  run Clamped.handleKeyDown Clamped.handleSearchResultsChanged
    (fun msg => Clamped.on_document (emit (console_error msg []))).

Definition wrap_main (alreadyExists : option Node) (d : Document)
  : Script (Page := Wrap.Page) :=
  main (fun msg => Wrap.on_document (emit (console_error msg []))) alreadyExists
       (Wrap.init d).

Definition wrap_dispatch : PageEvent -> Script -> Script :=
  dispatch Wrap.handleKeyDown Wrap.handleSearchResultsChanged
    (fun msg => Wrap.on_document (emit (console_error msg []))).

Definition wrap_run : list PageEvent -> Script -> Script :=
  run Wrap.handleKeyDown Wrap.handleSearchResultsChanged
    (fun msg => Wrap.on_document (emit (console_error msg []))).

(** ** Vocabulary of the further properties *)

(** The test the observer callback applies to an added node. *)
Definition is_search_div (node : Node) : bool :=
  is_HTMLDivElement node && String.eqb (node_id node) "search".

(** The inner loop of the callback over a list of nodes. *)
Definition inspect_all (ns : list Node) (w : Waiting) : Waiting :=
  fold_left (fun w node => inspect node w) ns w.

(** While the observer is connected the promise is pending, and back. *)
Definition wait_consistent (w : Waiting) : Prop :=
  (observing w = true /\ promise w = Pending) \/
  (observing w = false /\ exists v, promise w = Resolved v).

(** The added nodes of a sequence of batches, in the order the callback
    meets them. *)
Definition added_nodes (batches : list (list MutationRecord)) : list Node :=
  concat (concat batches).

Definition deliver_all (batches : list (list MutationRecord)) (w : Waiting) : Waiting :=
  fold_left (fun w mutationList => deliver mutationList w) batches w.

(** The document mutations among the events, in order. *)
Fixpoint document_batches (events : list PageEvent) : list (list MutationRecord) :=
  match events with
  | [] => []
  | DocumentMutated mutationList :: rest => mutationList :: document_batches rest
  | _ :: rest => document_batches rest
  end.

Definition is_container_mutation (e : PageEvent) : bool :=
  match e with ContainerMutated _ _ => true | _ => false end.

(** The scroll calls of a trace. *)
Definition is_scroll (e : Effect) : bool :=
  match e with scrollTo_top | scrollIntoView _ => true | _ => false end.

Definition scrolls (tr : list Effect) : list Effect := List.filter is_scroll tr.

Definition is_preventDefault (e : Effect) : bool :=
  match e with preventDefault => true | _ => false end.

(** The keys [content.js] binds, and those the earlier revision binds. *)
Definition clamped_bound (ev : KeyboardEvent) : bool :=
  move_key ev || activate_key ev || g_key ev.

Definition wrap_bound (ev : KeyboardEvent) : bool :=
  move_key ev || activate_key ev.

(** [k] presses of [j], one after the other. *)
Definition clamped_nexts (br : Browser) (k : nat) (p : Clamped.Page) : Clamped.Page :=
  Nat.iter k (Clamped.handleKeyDown br (press "j")) p.

Definition wrap_nexts (br : Browser) (k : nat) (p : Wrap.Page) : Wrap.Page :=
  Nat.iter k (Wrap.handleKeyDown br (press "j")) p.

(** A page of the earlier revision whose cursor is lost. *)
Definition cursor_lost (p : Wrap.Page) : Prop := Wrap.index p = Wrap.NaN.

(** The cursor of the earlier revision is [NaN] or a natural number. *)
Definition wrap_floor (p : Wrap.Page) : Prop :=
  match Wrap.index p with Wrap.Num i => 0 <= i | Wrap.NaN => True end.

(** A page on which nothing has been found or shown yet, relative to the
    document [d] the script started on. *)
Definition clamped_idle (d : Document) (p : Clamped.Page) : Prop :=
  Clamped.results p = [] /\ inert d (Clamped.document p).

Definition wrap_idle (d : Document) (p : Wrap.Page) : Prop :=
  Wrap.results p = [] /\ inert d (Wrap.document p).

(** The [preventDefault] calls of a trace. *)
Definition prevents (tr : list Effect) : list Effect := List.filter is_preventDefault tr.

(** What [highlightSelected] may call: scrolling, marker updates and the
    console. *)
Definition is_highlight_call (e : Effect) : bool :=
  match e with
  | scrollTo_top | scrollIntoView _ | classList_removed _ | classList_added _
  | console_error _ _ | console_log _ => true
  | _ => false
  end.

(** Document [d'] continues [d] by calls that all satisfy [allowed]. *)
Definition continues_by (allowed : Effect -> bool) (d d' : Document) : Prop :=
  exists calls, trace d' = trace d ++ calls /\ forallb allowed calls = true.

(** The navigation an activation makes on the selected entry, if any. *)
Definition navigation_of (metaKey : bool) (selected : option HTMLElement) : list Effect :=
  match selected with
  | Some element =>
      match anchor element with
      | Some href => [if metaKey then window_open href else location_href href]
      | None => []
      end
  | None => []
  end.

(** The scroll call of one highlight run in [content.js] and in the earlier
    revision. *)
Definition clamped_scroll (br : Browser) (p : Clamped.Page) : list Effect :=
  match js_index (Clamped.results p) (Clamped.index p) with
  | Some element =>
      if Clamped.index p =? 0 then [scrollTo_top]
      else if outside_viewport br element then [scrollIntoView (uid element)]
      else []
  | None => []
  end.

Definition wrap_scroll (br : Browser) (p : Wrap.Page) : list Effect :=
  match Wrap.at_number (Wrap.results p) (Wrap.index p) with
  | Some element =>
      if outside_viewport br element then [scrollIntoView (uid element)] else []
  | None => []
  end.

(** Two pages of the earlier revision that agree on the selection. *)
Definition wrap_same_selection (p q : Wrap.Page) : Prop :=
  Wrap.state p = Wrap.state q /\
  marked (Wrap.document p) = marked (Wrap.document q).

(** Sample nodes for the wait: the container, a [DIV] with another id, and
    a [SPAN] that carries the id [search]. *)
Definition search_div : Node := mkNode 50 true "search".
Definition second_search_div : Node := mkNode 51 true "search".
Definition other_div : Node := mkNode 60 true "rcnt".
Definition search_span : Node := mkNode 70 false "search".

(** * Properties *)

(** ** The marker store *)

Section Marker.

Implicit Types (d : Document) (el : NodeId) (hs : list NodeId).

Lemma remove_highlights_marked hs d :
  marked (remove_highlights hs d) =
  List.filter (fun x => negb (existsb (Nat.eqb x) hs)) (marked d).
Proof.
  unfold remove_highlights. revert d.
  induction hs as [|h hs IH]; intros d; simpl.
  - induction (marked d) as [|x l IHl]; simpl; [reflexivity | f_equal; exact IHl].
  - rewrite IH. simpl. clear IH.
    induction (marked d) as [|x l IHl]; simpl; [reflexivity|].
    destruct (Nat.eqb x h); simpl; [assumption|].
    destruct (existsb (Nat.eqb x) hs); simpl; congruence.
Qed.

Lemma remove_highlights_trace hs d :
  trace (remove_highlights hs d) = trace d ++ map classList_removed hs.
Proof.
  unfold remove_highlights. revert d.
  induction hs as [|h hs IH]; intros d; simpl.
  - now rewrite app_nil_r.
  - rewrite IH. simpl. now rewrite <- app_assoc.
Qed.

Lemma filter_out_self (l : list NodeId) :
  List.filter (fun x => negb (existsb (Nat.eqb x) l)) l = [].
Proof.
  assert (H : forall l', (forall x, In x l' -> In x l) ->
    List.filter (fun x => negb (existsb (Nat.eqb x) l)) l' = []).
  { induction l' as [|x l' IH]; intros Hin; simpl; [reflexivity|].
    assert (Hx : existsb (Nat.eqb x) l = true).
    { apply existsb_exists. exists x. split; [apply Hin; now left|apply Nat.eqb_refl]. }
    rewrite Hx. simpl. apply IH. intros y Hy. apply Hin. now right. }
  apply H. auto.
Qed.

(** Unmarking everything the query returned leaves nothing marked. *)
Lemma remove_highlights_all d :
  marked (remove_highlights (marked d) d) = [].
Proof. rewrite remove_highlights_marked. apply filter_out_self. Qed.

Lemma already_highlighted_spec hs (element : HTMLElement) :
  already_highlighted hs element = true <-> hs = [uid element].
Proof.
  unfold already_highlighted, same_node.
  destruct hs as [|h [|h' hs]]; simpl; split; try discriminate.
  - intros H. apply Nat.eqb_eq in H. now subst.
  - intros [= ->]. apply Nat.eqb_refl.
Qed.

Lemma remove_highlights_outside hs d :
  marked_outside (remove_highlights hs d) =
  List.filter (fun x => negb (existsb (Nat.eqb x) hs)) (marked_outside d).
Proof.
  unfold remove_highlights. revert d.
  induction hs as [|h hs IH]; intros d; simpl.
  - induction (marked_outside d) as [|x l IHl]; simpl; [reflexivity | f_equal; exact IHl].
  - rewrite IH. simpl. clear IH.
    induction (marked_outside d) as [|x l IHl]; simpl; [reflexivity|].
    destruct (Nat.eqb x h); simpl; [assumption|].
    destruct (existsb (Nat.eqb x) hs); simpl; congruence.
Qed.

Lemma with_class_keeps el (l : list NodeId) x : In x l -> In x (with_class el l).
Proof.
  unfold with_class. destruct (existsb (Nat.eqb el) l); [auto|].
  intros H. apply in_or_app. now left.
Qed.

Lemma marked_after_same (element : HTMLElement) hs :
  hs = [uid element] -> marked_after element hs = hs.
Proof. intros H. unfold marked_after. now destruct (decide (hs = [uid element])). Qed.

Lemma marked_after_other (element : HTMLElement) hs :
  hs <> [uid element] ->
  marked_after element hs = if isConnected element then [uid element] else [].
Proof. intros H. unfold marked_after. now destruct (decide (hs = [uid element])). Qed.

Lemma marked_after_only (element : HTMLElement) hs x :
  In x (marked_after element hs) -> x = uid element.
Proof.
  unfold marked_after. destruct (decide (hs = [uid element])) as [->|_].
  - intros [H|[]]. now symmetry.
  - destruct (isConnected element); [|intros []]. intros [H|[]]. now symmetry.
Qed.

Lemma marked_after_connected (element : HTMLElement) hs :
  isConnected element = true -> marked_after element hs = [uid element].
Proof.
  intros H. unfold marked_after.
  destruct (decide (hs = [uid element])); [assumption|now rewrite H].
Qed.

(** Marking again changes nothing more. *)
Lemma marked_after_twice (element : HTMLElement) hs :
  marked_after element (marked_after element hs) = marked_after element hs.
Proof.
  destruct (decide (hs = [uid element])) as [E|E].
  - now rewrite (marked_after_same element hs E), (marked_after_same element hs E).
  - rewrite (marked_after_other element hs E).
    destruct (isConnected element) eqn:C.
    + now apply marked_after_same.
    + rewrite marked_after_other by discriminate. now rewrite C.
Qed.

(** What [update_marker] leaves behind, in closed form. *)
Lemma update_marker_marked (element : HTMLElement) d :
  marked (update_marker element d) = marked_after element (marked d).
Proof.
  unfold update_marker.
  destruct (already_highlighted (marked d) element) eqn:E.
  - apply already_highlighted_spec in E. now rewrite marked_after_same.
  - rewrite marked_after_other.
    + unfold classList_add. simpl. rewrite remove_highlights_all.
      now destruct (isConnected element).
    + intros H. apply already_highlighted_spec in H. congruence.
Qed.

(** Elements outside the document keep the class. *)
Lemma update_marker_outside (element : HTMLElement) d x :
  In x (marked_outside d) -> ~ In x (marked d) ->
  In x (marked_outside (update_marker element d)).
Proof.
  intros Hx Hn. unfold update_marker.
  destruct (already_highlighted (marked d) element); [exact Hx|].
  assert (Hf : In x (marked_outside (remove_highlights (marked d) d))).
  { rewrite remove_highlights_outside. apply filter_In. split; [exact Hx|].
    destruct (existsb (Nat.eqb x) (marked d)) eqn:E; [|reflexivity].
    apply existsb_exists in E as (y & Hy & Hxy). apply Nat.eqb_eq in Hxy. now subst. }
  unfold classList_add. simpl.
  destruct (isConnected element); [exact Hf|now apply with_class_keeps].
Qed.

Lemma update_marker_noop (element : HTMLElement) d :
  marked d = [uid element] -> update_marker element d = d.
Proof.
  intros H. unfold update_marker.
  apply already_highlighted_spec in H. now rewrite H.
Qed.

Lemma update_marker_trace (element : HTMLElement) d :
  marked d <> [uid element] ->
  trace (update_marker element d) =
  trace d ++ map classList_removed (marked d) ++ [classList_added (uid element)].
Proof.
  intros H. unfold update_marker.
  destruct (already_highlighted (marked d) element) eqn:E.
  - apply already_highlighted_spec in E. contradiction.
  - unfold classList_add. simpl. rewrite remove_highlights_trace.
    now rewrite <- app_assoc.
Qed.

End Marker.

(** ** Frame lemmas: what the handlers leave alone *)

Section Frames.

Lemma clamped_highlight_state br p :
  Clamped.state (Clamped.highlightSelected br p) = Clamped.state p.
Proof.
  unfold Clamped.highlightSelected.
  destruct (Clamped.size p =? 0); [reflexivity|].
  destruct (js_index _ _); [|reflexivity].
  destruct (Clamped.index p =? 0); [reflexivity|].
  destruct (outside_viewport br h); reflexivity.
Qed.

(** On an empty list [highlightSelected] returns at its first test. *)
Lemma clamped_highlight_empty br p :
  Clamped.results p = [] -> Clamped.highlightSelected br p = p.
Proof.
  intros H. unfold Clamped.highlightSelected, Clamped.size. now rewrite H.
Qed.

Lemma clamped_highlight_lastG br p :
  Clamped.lastGKeyPress (Clamped.highlightSelected br p) = Clamped.lastGKeyPress p.
Proof.
  unfold Clamped.highlightSelected.
  destruct (Clamped.size p =? 0); [reflexivity|].
  destruct (js_index _ _); [|reflexivity].
  destruct (Clamped.index p =? 0); [reflexivity|].
  destruct (outside_viewport br h); reflexivity.
Qed.

Lemma wrap_highlight_state br p :
  Wrap.state (Wrap.highlightSelected br p) = Wrap.state p.
Proof.
  unfold Wrap.highlightSelected.
  destruct (Wrap.at_number _ _); [|reflexivity].
  destruct (outside_viewport br h); reflexivity.
Qed.

Lemma clamped_highlight_index br p :
  Clamped.index (Clamped.highlightSelected br p) = Clamped.index p.
Proof. unfold Clamped.index. now rewrite clamped_highlight_state. Qed.

Lemma clamped_highlight_results br p :
  Clamped.results (Clamped.highlightSelected br p) = Clamped.results p.
Proof. unfold Clamped.results. now rewrite clamped_highlight_state. Qed.

Lemma wrap_highlight_index br p :
  Wrap.index (Wrap.highlightSelected br p) = Wrap.index p.
Proof. unfold Wrap.index. now rewrite wrap_highlight_state. Qed.

Lemma wrap_highlight_results br p :
  Wrap.results (Wrap.highlightSelected br p) = Wrap.results p.
Proof. unfold Wrap.results. now rewrite wrap_highlight_state. Qed.

(** No key changes the result list. *)
Lemma clamped_key_results br ev p :
  Clamped.results (Clamped.handleKeyDown br ev p) = Clamped.results p.
Proof.
  unfold Clamped.handleKeyDown.
  repeat match goal with
  | |- context [Clamped.highlightSelected _ _] => rewrite clamped_highlight_results
  | |- context [if ?b then _ else _] => destruct b
  | |- context [match ?o with Some _ => _ | None => _ end] => destruct o
  end; reflexivity.
Qed.

Lemma wrap_key_results br ev p :
  Wrap.results (Wrap.handleKeyDown br ev p) = Wrap.results p.
Proof.
  unfold Wrap.handleKeyDown.
  repeat match goal with
  | |- context [Wrap.highlightSelected _ _] => rewrite wrap_highlight_results
  | |- context [if ?b then _ else _] => destruct b
  | |- context [match ?o with Some _ => _ | None => _ end] => destruct o
  end; reflexivity.
Qed.

End Frames.

(** ** Moving the cursor *)

Section Moves.

Lemma move_key_cases ev :
  move_key ev = true ->
  next_key ev = true \/ (next_key ev = false /\ prev_key ev = true).
Proof.
  unfold move_key. destruct (next_key ev); simpl; auto.
Qed.

(** One [next] press in the clamped revision. *)
Lemma clamped_next br ev p :
  inside_input br = false -> next_key ev = true ->
  Clamped.index (Clamped.handleKeyDown br ev p) =
  Clamped.clamp (Clamped.index p + 1) 0 (Clamped.size p - 1).
Proof.
  intros Hin Hk. unfold Clamped.handleKeyDown, next_key in *.
  rewrite Hin, Hk. now rewrite clamped_highlight_index.
Qed.

Lemma clamped_prev br ev p :
  inside_input br = false -> next_key ev = false -> prev_key ev = true ->
  Clamped.index (Clamped.handleKeyDown br ev p) =
  Clamped.clamp (Clamped.index p - 1) 0 (Clamped.size p - 1).
Proof.
  intros Hin Hn Hk. unfold Clamped.handleKeyDown, next_key, prev_key in *.
  rewrite Hin, Hn, Hk. now rewrite clamped_highlight_index.
Qed.

Lemma wrap_next br ev p :
  inside_input br = false -> next_key ev = true ->
  Wrap.index (Wrap.handleKeyDown br ev p) =
  Wrap.js_rem (Wrap.js_add (Wrap.index p) (Wrap.Num 1)) (Wrap.size p).
Proof.
  intros Hin Hk. unfold Wrap.handleKeyDown, next_key in *.
  rewrite Hin, Hk. now rewrite wrap_highlight_index.
Qed.

Lemma wrap_prev br ev p :
  inside_input br = false -> next_key ev = false -> prev_key ev = true ->
  Wrap.index (Wrap.handleKeyDown br ev p) =
  Wrap.js_rem (Wrap.js_add (Wrap.js_sub (Wrap.index p) (Wrap.Num 1)) (Wrap.size p))
              (Wrap.size p).
Proof.
  intros Hin Hn Hk. unfold Wrap.handleKeyDown, next_key, prev_key in *.
  rewrite Hin, Hn, Hk. now rewrite wrap_highlight_index.
Qed.

(** A press while the focus is in a text field does nothing. *)
Lemma clamped_inside_input br ev p :
  inside_input br = true -> Clamped.handleKeyDown br ev p = p.
Proof. intros H. unfold Clamped.handleKeyDown. now rewrite H. Qed.

Lemma wrap_inside_input br ev p :
  inside_input br = true -> Wrap.handleKeyDown br ev p = p.
Proof. intros H. unfold Wrap.handleKeyDown. now rewrite H. Qed.

Lemma clamp_bounds v lo hi : lo <= hi -> lo <= Clamped.clamp v lo hi <= hi.
Proof. unfold Clamped.clamp. lia. Qed.

(** With nothing to select, [clamp] against [max = -1] gives [min]. *)
Lemma clamp_empty v : Clamped.clamp v 0 (0 - 1) = 0.
Proof. unfold Clamped.clamp. lia. Qed.

(** One move key keeps an in-range cursor in range (clamped revision). *)
Lemma clamped_move_in_range br ev p :
  move_key ev = true -> clamped_in_range p ->
  clamped_in_range (Clamped.handleKeyDown br ev p).
Proof.
  intros Hk Hr. unfold clamped_in_range in *.
  assert (Hsize : Clamped.size (Clamped.handleKeyDown br ev p) = Clamped.size p).
  { unfold Clamped.size. now rewrite clamped_key_results. }
  rewrite Hsize.
  destruct (inside_input br) eqn:Hin.
  - now rewrite clamped_inside_input.
  - destruct (move_key_cases ev Hk) as [Hn|[Hn Hp]].
    + rewrite clamped_next by assumption. unfold Clamped.clamp. lia.
    + rewrite clamped_prev by assumption. unfold Clamped.clamp. lia.
Qed.

(** One move key keeps an in-range cursor in range (wrapping revision). *)
Lemma wrap_move_in_range br ev p :
  move_key ev = true -> wrap_in_range p ->
  wrap_in_range (Wrap.handleKeyDown br ev p).
Proof.
  intros Hk Hr. unfold wrap_in_range in *.
  rewrite wrap_key_results.
  destruct (inside_input br) eqn:Hin.
  - now rewrite wrap_inside_input.
  - destruct (Wrap.index p) as [i|] eqn:Hi; [|contradiction].
    set (n := Z.of_nat (length (Wrap.results p))) in *.
    assert (Hn0 : (n =? 0) = false) by (apply Z.eqb_neq; lia).
    destruct (move_key_cases ev Hk) as [Hn|[Hn Hp]].
    + rewrite wrap_next by assumption. rewrite Hi. unfold Wrap.size. fold n.
      simpl. rewrite Hn0. apply Z.rem_bound_pos; lia.
    + rewrite wrap_prev by assumption. rewrite Hi. unfold Wrap.size. fold n.
      simpl. rewrite Hn0. apply Z.rem_bound_pos; lia.
Qed.

End Moves.

(** ** C1: the cursor stays inside the list *)

(** C1.  On a non-empty result list, starting from [0 <= selectedIndex <
    results.length], any sequence of presses of the move keys ([j],
    [ArrowDown], [k], [ArrowUp]) leaves [0 <= selectedIndex <
    results.length]: in [content.js] every step is clamped to the bounds
    ([next] gives [min (i+1) (length-1)], [prev] gives [max (i-1) 0]), in the
    earlier revision every step is reduced modulo the length ([next] gives
    [(i+1) mod length], [prev] gives [(i-1) mod length]). *)
Theorem cursor_stays_in_range :
  (forall (ks : list KeyPress) (p : Clamped.Page),
      Clamped.results p <> [] -> clamped_in_range p ->
      Forall (fun k => move_key (snd k) = true) ks ->
      clamped_in_range (clamped_presses ks p)) /\
  (forall (ks : list KeyPress) (p : Wrap.Page),
      Wrap.results p <> [] -> wrap_in_range p ->
      Forall (fun k => move_key (snd k) = true) ks ->
      wrap_in_range (wrap_presses ks p)) /\
  (forall br ev (p : Clamped.Page),
      inside_input br = false -> clamped_in_range p ->
      (next_key ev = true ->
         Clamped.index (Clamped.handleKeyDown br ev p) =
           Z.min (Clamped.index p + 1) (Clamped.size p - 1)) /\
      (next_key ev = false -> prev_key ev = true ->
         Clamped.index (Clamped.handleKeyDown br ev p) =
           Z.max (Clamped.index p - 1) 0)) /\
  (forall br ev (p : Wrap.Page) i,
      inside_input br = false -> wrap_in_range p -> Wrap.index p = Wrap.Num i ->
      (next_key ev = true ->
         Wrap.index (Wrap.handleKeyDown br ev p) =
           Wrap.Num ((i + 1) mod Z.of_nat (length (Wrap.results p)))) /\
      (next_key ev = false -> prev_key ev = true ->
         Wrap.index (Wrap.handleKeyDown br ev p) =
           Wrap.Num ((i - 1) mod Z.of_nat (length (Wrap.results p))))).
Proof.
  split; [|split; [|split]].
  - intros ks. induction ks as [|[br ev] ks IH]; intros p Hne Hr Hks.
    + exact Hr.
    + inversion Hks as [|k ks' Hk Hrest]; subst. simpl in *.
      apply IH; [|now apply clamped_move_in_range|assumption].
      now rewrite clamped_key_results.
  - intros ks. induction ks as [|[br ev] ks IH]; intros p Hne Hr Hks.
    + exact Hr.
    + inversion Hks as [|k ks' Hk Hrest]; subst. simpl in *.
      apply IH; [|now apply wrap_move_in_range|assumption].
      now rewrite wrap_key_results.
  - intros br ev p Hin Hr. unfold clamped_in_range in Hr. split.
    + intros Hn. rewrite clamped_next by assumption. unfold Clamped.clamp. lia.
    + intros Hn Hp. rewrite clamped_prev by assumption. unfold Clamped.clamp. lia.
  - intros br ev p i Hin Hr Hi. unfold wrap_in_range in Hr. rewrite Hi in Hr.
    set (n := Z.of_nat (length (Wrap.results p))) in *.
    assert (Hn0 : (n =? 0) = false) by (apply Z.eqb_neq; lia).
    split.
    + intros Hn. rewrite wrap_next by assumption. rewrite Hi. unfold Wrap.size.
      fold n. simpl. rewrite Hn0. f_equal. apply Z.rem_mod_nonneg; lia.
    + intros Hn Hp. rewrite wrap_prev by assumption. rewrite Hi. unfold Wrap.size.
      fold n. simpl. rewrite Hn0. f_equal.
      rewrite Z.rem_mod_nonneg by lia.
      replace (i - 1 + n) with (i - 1 + 1 * n) by lia. apply Z_mod_plus_full.
Qed.

Lemma cursor_stays_in_range_witness :
  clamped_in_range
    (clamped_presses
       [(browser_at 5000, press "j"); (browser_at 5100, press "ArrowDown");
        (browser_at 5200, press "j"); (browser_at 5300, press "k")]
       (clamped_page five_results 3 blank)) /\
  wrap_in_range
    (wrap_presses
       [(browser_at 5000, press "j"); (browser_at 5100, press "ArrowDown");
        (browser_at 5200, press "ArrowUp"); (browser_at 5300, press "k")]
       (wrap_page five_results (Wrap.Num 3) blank)).
Proof.
  split.
  - apply (proj1 cursor_stays_in_range).
    + discriminate.
    + unfold clamped_in_range, Clamped.index, Clamped.size; simpl; lia.
    + repeat constructor.
  - apply (proj1 (proj2 cursor_stays_in_range)).
    + discriminate.
    + unfold wrap_in_range, Wrap.index; simpl; lia.
    + repeat constructor.
Defined.

(** ** C2: the two revisions part at the upper boundary *)

(** C2.  On a list of 5 entries with [selectedIndex = 4], one [next] press
    leaves the index at 4 in [content.js] and moves it to 0 in the earlier
    revision, so the two [next] operations differ there. *)
Theorem next_at_last_entry br ev (pc : Clamped.Page) (pw : Wrap.Page) :
  inside_input br = false -> next_key ev = true ->
  length (Clamped.results pc) = 5%nat -> Clamped.index pc = 4 ->
  length (Wrap.results pw) = 5%nat -> Wrap.index pw = Wrap.Num 4 ->
  Clamped.index (Clamped.handleKeyDown br ev pc) = 4 /\
  Wrap.index (Wrap.handleKeyDown br ev pw) = Wrap.Num 0 /\
  Wrap.Num (Clamped.index (Clamped.handleKeyDown br ev pc)) <>
  Wrap.index (Wrap.handleKeyDown br ev pw).
Proof.
  intros Hin Hk Hlc Hic Hlw Hiw.
  assert (Hc : Clamped.index (Clamped.handleKeyDown br ev pc) = 4).
  { rewrite clamped_next by assumption.
    unfold Clamped.size. rewrite Hlc, Hic. reflexivity. }
  assert (Hw : Wrap.index (Wrap.handleKeyDown br ev pw) = Wrap.Num 0).
  { rewrite wrap_next by assumption.
    unfold Wrap.size. rewrite Hlw, Hiw. reflexivity. }
  rewrite Hc, Hw. repeat split; discriminate.
Qed.

Lemma next_at_last_entry_witness :
  Clamped.index
    (Clamped.handleKeyDown (browser_at 5000) (press "j")
       (clamped_page five_results 4 blank)) = 4 /\
  Wrap.index
    (Wrap.handleKeyDown (browser_at 5000) (press "j")
       (wrap_page five_results (Wrap.Num 4) blank)) = Wrap.Num 0 /\
  Wrap.Num
    (Clamped.index
       (Clamped.handleKeyDown (browser_at 5000) (press "j")
          (clamped_page five_results 4 blank))) <>
  Wrap.index
    (Wrap.handleKeyDown (browser_at 5000) (press "j")
       (wrap_page five_results (Wrap.Num 4) blank)).
Proof.
  apply (next_at_last_entry (browser_at 5000) (press "j")
           (clamped_page five_results 4 blank)
           (wrap_page five_results (Wrap.Num 4) blank));
    reflexivity.
Defined.

(** ** C10: a move key on an empty list *)

(** C10.  In [content.js], a [next] or [prev] press while the result list is
    empty assigns [selectedIndex = 0] whatever it was ([clamp] with [min = 0]
    and [max = -1]); the highlight call that follows returns at once: no
    marker is touched and nothing is reported, the only call made is
    [preventDefault]. *)
Theorem move_on_empty_list br ev (p : Clamped.Page) :
  inside_input br = false -> move_key ev = true -> Clamped.results p = [] ->
  Clamped.index (Clamped.handleKeyDown br ev p) = 0 /\
  Clamped.results (Clamped.handleKeyDown br ev p) = [] /\
  marked (Clamped.document (Clamped.handleKeyDown br ev p)) =
    marked (Clamped.document p) /\
  trace (Clamped.document (Clamped.handleKeyDown br ev p)) =
    trace (Clamped.document p) ++ [preventDefault].
Proof.
  intros Hin Hk He.
  assert (Hsz : Clamped.size p = 0) by (unfold Clamped.size; now rewrite He).
  split.
  { destruct (move_key_cases ev Hk) as [Hn|[Hn Hp]].
    - rewrite clamped_next by assumption. rewrite Hsz. apply clamp_empty.
    - rewrite clamped_prev by assumption. rewrite Hsz. apply clamp_empty. }
  split; [now rewrite clamped_key_results|].
  unfold Clamped.handleKeyDown. rewrite Hin.
  destruct (move_key_cases ev Hk) as [Hn|[Hn Hp]]; unfold next_key, prev_key in *.
  - rewrite Hn. rewrite clamped_highlight_empty by exact He. split; reflexivity.
  - rewrite Hn, Hp. rewrite clamped_highlight_empty by exact He. split; reflexivity.
Qed.

Lemma move_on_empty_list_witness :
  Clamped.index
    (Clamped.handleKeyDown (browser_at 5000) (press "k") (clamped_page [] 7 blank)) = 0 /\
  Clamped.results
    (Clamped.handleKeyDown (browser_at 5000) (press "k") (clamped_page [] 7 blank)) = [] /\
  marked (Clamped.document
    (Clamped.handleKeyDown (browser_at 5000) (press "k") (clamped_page [] 7 blank))) = [] /\
  trace (Clamped.document
    (Clamped.handleKeyDown (browser_at 5000) (press "k") (clamped_page [] 7 blank))) =
    [preventDefault].
Proof.
  apply (move_on_empty_list (browser_at 5000) (press "k") (clamped_page [] 7 blank));
    reflexivity.
Defined.

(** ** C8: one marker, on the selected entry *)

Section Highlight.

Lemma marker_updates_app tr1 tr2 :
  marker_updates (tr1 ++ tr2) = marker_updates tr1 ++ marker_updates tr2.
Proof. apply List.filter_app. Qed.

Lemma marker_updates_removed (hs : list NodeId) :
  marker_updates (map classList_removed hs) = map classList_removed hs.
Proof. induction hs as [|h hs IH]; simpl; [reflexivity|]. now f_equal. Qed.

Lemma js_index_some_nonempty {A} (l : list A) i x :
  js_index l i = Some x -> (Z.of_nat (length l) =? 0) = false.
Proof.
  unfold js_index. destruct (0 <=? i); [|discriminate].
  destruct l; [discriminate|]. intros _. reflexivity.
Qed.

(** [update_marker] run after calls that are no marker updates. *)
Lemma update_marker_outcome (element : HTMLElement) d d0 extra :
  marked d0 = marked d -> marked_outside d0 = marked_outside d ->
  trace d0 = trace d ++ extra ->
  marker_updates extra = [] ->
  highlight_outcome element d (update_marker element d0).
Proof.
  intros Hm Ho Ht Hx. unfold highlight_outcome.
  assert (Hmk : marked (update_marker element d0) = marked_after element (marked d))
    by (rewrite update_marker_marked; now rewrite Hm).
  split; [exact Hmk|]. split; [|split; [|split; [|split]]].
  - intros x. rewrite Hmk. apply marked_after_only.
  - intros H. rewrite Hmk. now apply marked_after_connected.
  - intros x Hx1 Hx2. apply update_marker_outside; congruence.
  - intros H. rewrite update_marker_noop by congruence.
    rewrite Ht, marker_updates_app, Hx. apply app_nil_r.
  - intros H. rewrite update_marker_trace by congruence.
    rewrite Ht, Hm. rewrite !marker_updates_app, Hx, app_nil_r.
    now rewrite marker_updates_removed.
Qed.

Lemma clamped_highlight_outcome br p element :
  js_index (Clamped.results p) (Clamped.index p) = Some element ->
  highlight_outcome element (Clamped.document p)
    (Clamped.document (Clamped.highlightSelected br p)).
Proof.
  intros H. unfold Clamped.highlightSelected, Clamped.size.
  rewrite (js_index_some_nonempty _ _ _ H), H.
  destruct (Clamped.index p =? 0).
  - apply update_marker_outcome with (extra := [scrollTo_top]); reflexivity.
  - destruct (outside_viewport br element).
    + apply update_marker_outcome with (extra := [scrollIntoView (uid element)]);
        reflexivity.
    + apply update_marker_outcome with (extra := []);
        [reflexivity|reflexivity|symmetry; apply app_nil_r|reflexivity].
Qed.

Lemma wrap_highlight_outcome br p element :
  Wrap.at_number (Wrap.results p) (Wrap.index p) = Some element ->
  highlight_outcome element (Wrap.document p)
    (Wrap.document (Wrap.highlightSelected br p)).
Proof.
  intros H. unfold Wrap.highlightSelected. rewrite H.
  destruct (outside_viewport br element).
  - apply update_marker_outcome
      with (extra := [console_log (uid element); scrollIntoView (uid element)]);
      [reflexivity|reflexivity| |reflexivity].
    simpl. now rewrite <- app_assoc.
  - apply update_marker_outcome with (extra := [console_log (uid element)]);
      reflexivity.
Qed.

End Highlight.

(** C8, as the code has it.  The script sees the marker only through
    [document.querySelectorAll].  A run of [highlightSelected] that reaches
    the marker update (the selected entry exists) leaves, among the elements
    of the document, at most the selected entry marked, and exactly it when
    the entry is in the document.  If the query returned the entry and
    nothing else, no marker is removed or added; otherwise the run first
    removes the marker from every element the query returned and then calls
    [classList.add] on the selected entry.  Elements outside the document
    that carry the marker keep it.  Both revisions. *)
Theorem highlight_marks_selected_only br :
  (forall (p : Clamped.Page) element,
      js_index (Clamped.results p) (Clamped.index p) = Some element ->
      highlight_outcome element (Clamped.document p)
        (Clamped.document (Clamped.highlightSelected br p))) /\
  (forall (p : Wrap.Page) element,
      Wrap.at_number (Wrap.results p) (Wrap.index p) = Some element ->
      highlight_outcome element (Wrap.document p)
        (Wrap.document (Wrap.highlightSelected br p))).
Proof.
  split; intros p element H.
  - now apply clamped_highlight_outcome.
  - now apply wrap_highlight_outcome.
Qed.

Lemma highlight_marks_selected_only_witness :
  highlight_outcome (result_block 3 "https://c.example/")
    {| marked := [1; 4]%nat; marked_outside := [9]%nat; trace := [] |}
    (Clamped.document
       (Clamped.highlightSelected (browser_at 5000)
          (clamped_page five_results 2
             {| marked := [1; 4]%nat; marked_outside := [9]%nat; trace := [] |}))) /\
  highlight_outcome (result_block 3 "https://c.example/")
    {| marked := [3]%nat; marked_outside := []; trace := [] |}
    (Wrap.document
       (Wrap.highlightSelected (browser_at 5000)
          (wrap_page five_results (Wrap.Num 2)
             {| marked := [3]%nat; marked_outside := []; trace := [] |}))).
Proof.
  split.
  - apply (proj1 (highlight_marks_selected_only (browser_at 5000))
             (clamped_page five_results 2
                {| marked := [1; 4]%nat; marked_outside := [9]%nat; trace := [] |})).
    reflexivity.
  - apply (proj2 (highlight_marks_selected_only (browser_at 5000))
             (wrap_page five_results (Wrap.Num 2)
                {| marked := [3]%nat; marked_outside := []; trace := [] |})).
    reflexivity.
Defined.

(** C8 as stated fails for elements outside the document.  First: the
    selected entry is the container after the page detached it (the entry
    the extractor returns for [detached_search]).  One run marks it, and it
    is then the one element that carries the marker; the query still returns
    nothing, so the next run is no no-op: it calls [classList.add] on the
    entry again.  Second: an element that was marked and then removed from
    the document by the page still carries the marker; a run on an entry of
    the document does not unmark it, and two elements carry the marker
    afterwards. *)
Lemma marker_outside_document :
  let entry := self detached_search in
  let p1 := Clamped.highlightSelected (browser_at 5000) (clamped_page [entry] 0 blank) in
  let p2 := Clamped.highlightSelected (browser_at 5100) p1 in
  let q := Clamped.highlightSelected (browser_at 5000)
             (clamped_page five_results 2
                {| marked := []; marked_outside := [9]%nat; trace := [] |}) in
  (marked (Clamped.document p1) = [] /\
   marked_outside (Clamped.document p1) = [uid entry]) /\
  marker_updates (trace (Clamped.document p2)) =
    [classList_added (uid entry); classList_added (uid entry)] /\
  (marked (Clamped.document q) = [3]%nat /\
   marked_outside (Clamped.document q) = [9]%nat).
Proof. cbv zeta. repeat split. Qed.

(** ** C6: activation of an entry without link *)

Section Activation.

Lemma activate_key_cases ev :
  activate_key ev = true -> next_key ev = false /\ prev_key ev = false.
Proof.
  unfold activate_key, next_key, prev_key, key_in. simpl.
  destruct (String.eqb_spec (key ev) " ") as [->|_]; [now split|].
  destruct (String.eqb_spec (key ev) "Enter") as [->|_]; [now split|].
  discriminate.
Qed.

Lemma clamped_activate br ev p :
  inside_input br = false -> activate_key ev = true ->
  Clamped.handleKeyDown br ev p =
  let p := Clamped.on_document (emit preventDefault) p in
  match js_index (Clamped.results p) (Clamped.index p) with
  | None => Clamped.on_document (emit (console_error "Selected element is undefined" [])) p
  | Some element =>
      match anchor element with
      | None => Clamped.on_document (emit (console_error "Link not found" [])) p
      | Some href =>
          if metaKey ev then Clamped.on_document (emit (window_open href)) p
          else Clamped.on_document (emit (location_href href)) p
      end
  end.
Proof.
  intros Hin Hk. destruct (activate_key_cases ev Hk) as [Hn Hp].
  unfold Clamped.handleKeyDown, activate_key, next_key, prev_key in *.
  now rewrite Hin, Hn, Hp, Hk.
Qed.

Lemma wrap_activate br ev p :
  inside_input br = false -> activate_key ev = true ->
  Wrap.handleKeyDown br ev p =
  let p := Wrap.on_document (emit preventDefault) p in
  match Wrap.at_number (Wrap.results p) (Wrap.index p) with
  | None => Wrap.on_document (emit (console_error "Selected element is undefined" [])) p
  | Some element =>
      match anchor element with
      | None => Wrap.on_document (emit (console_error "Link not found" [])) p
      | Some href =>
          if metaKey ev then Wrap.on_document (emit (window_open href)) p
          else Wrap.on_document (emit (location_href href)) p
      end
  end.
Proof.
  intros Hin Hk. destruct (activate_key_cases ev Hk) as [Hn Hp].
  unfold Wrap.handleKeyDown, activate_key, next_key, prev_key in *.
  now rewrite Hin, Hn, Hp, Hk.
Qed.

Lemma navigations_app tr1 tr2 :
  navigations (tr1 ++ tr2) = navigations tr1 ++ navigations tr2.
Proof. apply List.filter_app. Qed.

End Activation.

(** C6.  An activation ([Enter] or [Space]) whose selected entry exists but
    has no anchor descendant reports "Link not found" and does nothing else:
    the script's state (so [selectedIndex]) and the markers are unchanged,
    and the trace gains no navigation, neither [window.open] nor an
    assignment to [location.href].  Both revisions. *)
Theorem activation_without_link br ev :
  inside_input br = false -> activate_key ev = true ->
  (forall (p : Clamped.Page) element,
      js_index (Clamped.results p) (Clamped.index p) = Some element ->
      anchor element = None ->
      let p' := Clamped.handleKeyDown br ev p in
      Clamped.state p' = Clamped.state p /\
      Clamped.lastGKeyPress p' = Clamped.lastGKeyPress p /\
      marked (Clamped.document p') = marked (Clamped.document p) /\
      trace (Clamped.document p') =
        trace (Clamped.document p) ++ [preventDefault; console_error "Link not found" []] /\
      navigations (trace (Clamped.document p')) = navigations (trace (Clamped.document p))) /\
  (forall (p : Wrap.Page) element,
      Wrap.at_number (Wrap.results p) (Wrap.index p) = Some element ->
      anchor element = None ->
      let p' := Wrap.handleKeyDown br ev p in
      Wrap.state p' = Wrap.state p /\
      marked (Wrap.document p') = marked (Wrap.document p) /\
      trace (Wrap.document p') =
        trace (Wrap.document p) ++ [preventDefault; console_error "Link not found" []] /\
      navigations (trace (Wrap.document p')) = navigations (trace (Wrap.document p))).
Proof.
  intros Hin Hk. split; intros p element Hsel Hlink p'; subst p'.
  - rewrite clamped_activate by assumption. cbv zeta.
    change (Clamped.results (Clamped.on_document (emit preventDefault) p))
      with (Clamped.results p).
    change (Clamped.index (Clamped.on_document (emit preventDefault) p))
      with (Clamped.index p).
    rewrite Hsel, Hlink. simpl. repeat split.
    + now rewrite <- app_assoc.
    + rewrite <- app_assoc, navigations_app. simpl. apply app_nil_r.
  - rewrite wrap_activate by assumption. cbv zeta.
    change (Wrap.results (Wrap.on_document (emit preventDefault) p))
      with (Wrap.results p).
    change (Wrap.index (Wrap.on_document (emit preventDefault) p))
      with (Wrap.index p).
    rewrite Hsel, Hlink. simpl. repeat split.
    + now rewrite <- app_assoc.
    + rewrite <- app_assoc, navigations_app. simpl. apply app_nil_r.
Qed.

Lemma activation_without_link_witness :
  let pc := clamped_page [result_block 1 "https://a.example/"; linkless_block 2] 1 blank in
  let pw := wrap_page [result_block 1 "https://a.example/"; linkless_block 2] (Wrap.Num 1) blank in
  trace (Clamped.document (Clamped.handleKeyDown (browser_at 5000) (press "Enter") pc)) =
    [preventDefault; console_error "Link not found" []] /\
  Clamped.index (Clamped.handleKeyDown (browser_at 5000) (press "Enter") pc) = 1 /\
  trace (Wrap.document (Wrap.handleKeyDown (browser_at 5000) (press "Enter") pw)) =
    [preventDefault; console_error "Link not found" []] /\
  Wrap.index (Wrap.handleKeyDown (browser_at 5000) (press "Enter") pw) = Wrap.Num 1.
Proof.
  intros pc pw.
  pose proof (activation_without_link (browser_at 5000) (press "Enter")
                eq_refl eq_refl) as [Hc Hw].
  specialize (Hc pc (linkless_block 2) eq_refl eq_refl).
  specialize (Hw pw (linkless_block 2) eq_refl eq_refl).
  cbv zeta in Hc, Hw.
  destruct Hc as (Hs & _ & _ & Ht & _). destruct Hw as (Hs' & _ & Ht' & _).
  unfold Clamped.index, Wrap.index. rewrite Hs, Hs', Ht, Ht'.
  repeat split.
Defined.

(** ** The extractor in closed form *)

Section Extractor.

(** Induction along the parent links. *)
Lemma parent_chain_ind (P : HTMLElement -> Prop) :
  (forall e, (forall parent, parentElement e = Some parent -> P parent) -> P e) ->
  forall e, P e.
Proof.
  intros Hstep. fix IH 1. intros e. apply Hstep.
  destruct e as [u t l a c [parent|]]; simpl; intros q Hq.
  - injection Hq as <-. apply IH.
  - discriminate.
Qed.

Lemma ancestors_or_self_cons e : exists r, ancestors_or_self e = e :: r.
Proof. destruct e; simpl; eauto. Qed.

Lemma last_cons_default {A} (l : list A) x d d' :
  List.last (x :: l) d = List.last (x :: l) d'.
Proof.
  revert x. induction l as [|y l IH]; intros x; [reflexivity|].
  change (List.last (y :: l) d = List.last (y :: l) d'). apply IH.
Qed.

(** The climb stops at the nearest element with [lang], silently; or at
    the top of the chain, with one report, when there is none. *)
Lemma climb_spec heading :
  climb heading =
  match List.find has_lang (ancestors_or_self heading) with
  | Some block => (block, [])
  | None => (chain_root heading, [console_error "Parent element is null" []])
  end.
Proof.
  induction heading as [e IH] using parent_chain_ind.
  destruct e as [u t l a c parent]. unfold chain_root. simpl. unfold has_lang at 1. simpl.
  destruct l as [s|]; [reflexivity|].
  destruct parent as [q|]; [|reflexivity].
  rewrite (IH q eq_refl). unfold chain_root.
  destruct (List.find has_lang (ancestors_or_self q)); [reflexivity|].
  f_equal. destruct (ancestors_or_self_cons q) as [r ->].
  apply last_cons_default.
Qed.

Lemma climb_reports heading : forallb is_report (snd (climb heading)) = true.
Proof.
  rewrite climb_spec.
  destruct (List.find has_lang (ancestors_or_self heading)); reflexivity.
Qed.

(** The [for] loop appends, heading by heading and in their order, the
    entry of each heading that has one; no heading stops the loop. *)
Lemma extract_loop_spec headings results out :
  extract_loop headings results out =
  (results ++ omap entry_of headings,
   out ++ concat (map (fun h => snd (climb h)) headings)).
Proof.
  revert results out.
  induction headings as [|h hs IH]; intros results out; simpl.
  - now rewrite !app_nil_r.
  - unfold entry_of at 1, is_div. destruct (climb h) as [hp reported] eqn:E. simpl.
    destruct (String.eqb (tagName hp) "DIV"); simpl; rewrite IH.
    + now rewrite <- !app_assoc.
    + now rewrite <- app_assoc.
Qed.

Lemma extract_spec searchElement :
  extractSearchResults searchElement =
  (omap entry_of (querySelectorAll_h3 searchElement),
   concat (map (fun h => snd (climb h)) (querySelectorAll_h3 searchElement))).
Proof. unfold extractSearchResults. now rewrite extract_loop_spec. Qed.

Lemma extract_reports searchElement :
  forallb is_report (snd (extractSearchResults searchElement)) = true.
Proof.
  rewrite extract_spec. simpl.
  induction (querySelectorAll_h3 searchElement) as [|h hs IH]; simpl; [reflexivity|].
  rewrite forallb_app, climb_reports, IH. reflexivity.
Qed.

(** Reports are neither DOM writes nor navigations. *)
Lemma reports_no_dom_write es : forallb is_report es = true -> dom_writes es = [].
Proof.
  induction es as [|e es IH]; simpl; [reflexivity|].
  intros H. apply andb_prop in H as [He Hes].
  destruct e; try discriminate. simpl. now apply IH.
Qed.

Lemma reports_no_navigation es : forallb is_report es = true -> navigations es = [].
Proof.
  induction es as [|e es IH]; simpl; [reflexivity|].
  intros H. apply andb_prop in H as [He Hes].
  destruct e; try discriminate. simpl. now apply IH.
Qed.

End Extractor.

(** ** Refresh: C9 and C3 *)

Section Refresh.

Lemma clamped_refresh_unfold br searchElement p :
  Clamped.handleSearchResultsChanged br searchElement p =
  if Clamped.shouldHighlight p
  then Clamped.highlightSelected br (clamped_refreshed searchElement p)
  else clamped_refreshed searchElement p.
Proof.
  unfold Clamped.handleSearchResultsChanged, clamped_refreshed.
  destruct (extractSearchResults searchElement) as [found reported].
  reflexivity.
Qed.

Lemma wrap_refresh_unfold br searchElement p :
  Wrap.handleSearchResultsChanged br searchElement p =
  Wrap.highlightSelected br (wrap_refreshed searchElement p).
Proof.
  unfold Wrap.handleSearchResultsChanged, wrap_refreshed.
  destruct (extractSearchResults searchElement) as [found reported].
  reflexivity.
Qed.

Lemma shouldHighlight_spec p :
  Clamped.shouldHighlight p = true <-> Clamped.size p <= Clamped.index p.
Proof. unfold Clamped.shouldHighlight. apply Z.leb_le. Qed.

Lemma clamped_refreshed_dom_writes searchElement p :
  dom_writes (trace (Clamped.document (clamped_refreshed searchElement p))) =
  dom_writes (trace (Clamped.document p)).
Proof.
  unfold clamped_refreshed. simpl. unfold dom_writes at 1.
  rewrite List.filter_app. fold (dom_writes (trace (Clamped.document p))).
  fold (dom_writes (snd (extractSearchResults searchElement))).
  rewrite (reports_no_dom_write _ (extract_reports searchElement)).
  apply app_nil_r.
Qed.

End Refresh.

(** C9.  A refresh never changes [selectedIndex]: in both revisions
    [handleSearchResultsChanged] replaces the result list by what the
    extractor returns and leaves the cursor as it was, whatever its value
    and whatever the extracted list. *)
Theorem refresh_keeps_cursor br searchElement :
  (forall p : Clamped.Page,
      Clamped.index (Clamped.handleSearchResultsChanged br searchElement p) =
        Clamped.index p /\
      Clamped.results (Clamped.handleSearchResultsChanged br searchElement p) =
        fst (extractSearchResults searchElement)) /\
  (forall p : Wrap.Page,
      Wrap.index (Wrap.handleSearchResultsChanged br searchElement p) =
        Wrap.index p /\
      Wrap.results (Wrap.handleSearchResultsChanged br searchElement p) =
        fst (extractSearchResults searchElement)).
Proof.
  split; intros p.
  - rewrite clamped_refresh_unfold.
    destruct (Clamped.shouldHighlight p).
    + rewrite clamped_highlight_index, clamped_highlight_results. now split.
    + now split.
  - rewrite wrap_refresh_unfold.
    rewrite wrap_highlight_index, wrap_highlight_results. now split.
Qed.

(** C3.  In [content.js] a refresh runs the highlight exactly when the list
    it replaces was no longer than the cursor ([shouldHighlight], i.e. old
    [results.length <= selectedIndex]).  When the cursor was inside the old
    list, the refresh only replaces the list: no scroll, no marker update,
    the marked elements stay marked; so it is, in particular, for a refresh
    whose new list is the old one with two entries appended. *)
Theorem refresh_highlights_when_stale br searchElement (p : Clamped.Page) :
  let p' := Clamped.handleSearchResultsChanged br searchElement p in
  (Clamped.shouldHighlight p = true <-> Clamped.size p <= Clamped.index p) /\
  (Clamped.size p <= Clamped.index p ->
     p' = Clamped.highlightSelected br (clamped_refreshed searchElement p)) /\
  (Clamped.index p < Clamped.size p ->
     p' = clamped_refreshed searchElement p /\
     marked (Clamped.document p') = marked (Clamped.document p) /\
     dom_writes (trace (Clamped.document p')) = dom_writes (trace (Clamped.document p))) /\
  (forall a b,
     Clamped.index p < Clamped.size p ->
     fst (extractSearchResults searchElement) = Clamped.results p ++ [a; b] ->
     Clamped.results p' = Clamped.results p ++ [a; b] /\
     marked (Clamped.document p') = marked (Clamped.document p) /\
     marker_updates (trace (Clamped.document p')) =
       marker_updates (trace (Clamped.document p))).
Proof.
  intros p'. subst p'. rewrite clamped_refresh_unfold.
  split; [apply shouldHighlight_spec|].
  split; [|split].
  - intros H. apply shouldHighlight_spec in H. now rewrite H.
  - intros H.
    assert (Hs : Clamped.shouldHighlight p = false).
    { unfold Clamped.shouldHighlight. apply Z.leb_gt. exact H. }
    rewrite Hs. split; [reflexivity|]. split; [reflexivity|].
    apply clamped_refreshed_dom_writes.
  - intros a b H Hnew.
    assert (Hs : Clamped.shouldHighlight p = false).
    { unfold Clamped.shouldHighlight. apply Z.leb_gt. exact H. }
    rewrite Hs. split; [exact Hnew|]. split; [reflexivity|].
    unfold clamped_refreshed. simpl. unfold marker_updates.
    rewrite List.filter_app.
    assert (Hr : List.filter is_marker_update (snd (extractSearchResults searchElement)) = []).
    { pose proof (extract_reports searchElement) as Hrep.
      induction (snd (extractSearchResults searchElement)) as [|e es IH]; [reflexivity|].
      simpl in Hrep. apply andb_prop in Hrep as [He Hes].
      destruct e; try discriminate. simpl. now apply IH. }
    rewrite Hr. apply app_nil_r.
Qed.

Lemma refresh_highlights_when_stale_witness :
  let p := clamped_page (firstn 3 five_results) 1 {| marked := [2]%nat; marked_outside := []; trace := [] |} in
  let p' := Clamped.handleSearchResultsChanged (browser_at 5000) (container_of five_results) p in
  Clamped.results p' = five_results /\
  marked (Clamped.document p') = [2]%nat /\
  marker_updates (trace (Clamped.document p')) = [].
Proof.
  intros p p'.
  apply (proj2 (proj2 (proj2
           (refresh_highlights_when_stale (browser_at 5000) (container_of five_results) p)))
           (result_block 4 "https://d.example/") (result_block 5 "https://e.example/")).
  - unfold Clamped.index, Clamped.size. simpl. lia.
  - reflexivity.
Defined.

(** The other side of C3 on a concrete page: the cursor sat at the end of
    the old list, entries arrive, and the refresh marks the new entry under
    the cursor. *)
Example refresh_highlights_new_entry :
  let p := clamped_page (firstn 3 five_results) 3 {| marked := [3]%nat; marked_outside := []; trace := [] |} in
  let p' := Clamped.handleSearchResultsChanged (browser_at 5000) (container_of five_results) p in
  marked (Clamped.document p') = [4]%nat /\
  trace (Clamped.document p') = [classList_removed 3; classList_added 4].
Proof. split; reflexivity. Qed.

(** ** C5: first and last *)

Section Jumps.

Lemma g_key_cases ev :
  g_key ev = true ->
  next_key ev = false /\ prev_key ev = false /\ activate_key ev = false /\
  key_in ev ["G"; "g"] = true /\ metaKey ev || ctrlKey ev = false.
Proof.
  unfold g_key, activate_key, next_key, prev_key, key_in. simpl.
  destruct (metaKey ev), (ctrlKey ev); simpl; rewrite ?andb_false_r; try discriminate.
  destruct (String.eqb_spec (key ev) "G") as [->|_]; [now repeat split|].
  destruct (String.eqb_spec (key ev) "g") as [->|_]; [now repeat split|].
  discriminate.
Qed.

Lemma clamped_g_press br ev p :
  inside_input br = false -> g_key ev = true ->
  Clamped.handleKeyDown br ev p =
  let p := Clamped.on_document (emit preventDefault) p in
  if shiftKey ev then
    Clamped.highlightSelected br (Clamped.set_selectedIndex (Clamped.size p - 1) p)
  else if Date_now br <? Clamped.lastGKeyPress p + 1000 then
    Clamped.highlightSelected br (Clamped.set_selectedIndex 0 p)
  else Clamped.set_lastGKeyPress (Date_now br) p.
Proof.
  intros Hin Hk. destruct (g_key_cases ev Hk) as (Hn & Hp & Ha & Hg & Hm).
  unfold Clamped.handleKeyDown, activate_key, next_key, prev_key in *.
  now rewrite Hin, Hn, Hp, Ha, Hg, Hm.
Qed.

(** The marked elements after a highlight run, from the page before. *)
Lemma clamped_highlight_marked br p :
  marked (Clamped.document (Clamped.highlightSelected br p)) =
  if Clamped.size p =? 0 then marked (Clamped.document p)
  else match js_index (Clamped.results p) (Clamped.index p) with
       | Some element => marked_after element (marked (Clamped.document p))
       | None => marked (Clamped.document p)
       end.
Proof.
  unfold Clamped.highlightSelected.
  destruct (Clamped.size p =? 0); [reflexivity|].
  destruct (js_index _ _) as [element|]; [|reflexivity].
  simpl. rewrite update_marker_marked.
  destruct (Clamped.index p =? 0); [reflexivity|].
  now destruct (outside_viewport br element).
Qed.

Lemma same_selection_highlight br p q :
  same_selection p q ->
  same_selection (Clamped.highlightSelected br p) (Clamped.highlightSelected br q).
Proof.
  intros [Hs Hm]. split.
  - now rewrite !clamped_highlight_state.
  - rewrite !clamped_highlight_marked.
    unfold Clamped.size, Clamped.results, Clamped.index. now rewrite Hs, Hm.
Qed.

(** Two pages that agree on the selection, and on whether a [g] press
    would count as the second of a pair, still agree after any key. *)
Lemma same_selection_key br ev p q :
  same_selection p q ->
  (Date_now br <? Clamped.lastGKeyPress p + 1000) =
  (Date_now br <? Clamped.lastGKeyPress q + 1000) ->
  same_selection (Clamped.handleKeyDown br ev p) (Clamped.handleKeyDown br ev q).
Proof.
  intros [Hs Hm] Hfire. unfold Clamped.handleKeyDown.
  destruct (inside_input br); [now split|].
  destruct (key_in ev ["j"; "ArrowDown"]).
  { apply same_selection_highlight. split; [|exact Hm].
    unfold Clamped.set_selectedIndex, Clamped.index, Clamped.size, Clamped.results.
    simpl. now rewrite Hs. }
  destruct (key_in ev ["k"; "ArrowUp"]).
  { apply same_selection_highlight. split; [|exact Hm].
    unfold Clamped.set_selectedIndex, Clamped.index, Clamped.size, Clamped.results.
    simpl. now rewrite Hs. }
  destruct (key_in ev [" "; "Enter"]).
  { unfold Clamped.index, Clamped.results. simpl. rewrite Hs.
    destruct (js_index _ _) as [element|]; [|now split].
    destruct (anchor element); [|now split].
    destruct (metaKey ev); now split. }
  destruct (key_in ev ["G"; "g"]); [|now split].
  destruct (metaKey ev || ctrlKey ev); [now split|].
  destruct (shiftKey ev).
  { apply same_selection_highlight. split; [|exact Hm].
    unfold Clamped.set_selectedIndex, Clamped.index, Clamped.size, Clamped.results.
    simpl. now rewrite Hs. }
  simpl. rewrite <- Hfire.
  destruct (Date_now br <? Clamped.lastGKeyPress p + 1000).
  - apply same_selection_highlight. split; [|exact Hm].
    unfold Clamped.set_selectedIndex, Clamped.index, Clamped.size, Clamped.results.
    simpl. now rewrite Hs.
  - now split.
Qed.

End Jumps.

(** C5.  In [content.js], on a non-empty list, [last] (shift with [G] or
    [g], no meta, no ctrl) sets [selectedIndex = length - 1].  [first] takes
    two presses: two [g] presses (no shift, meta or ctrl), the second less
    than 1000 ms after the first, leave [selectedIndex = 0]; one [g] press
    on its own (none in the 1000 ms before it) changes neither the list nor
    the cursor nor the markers: after [preventDefault] it only records the
    time.  Once 1000 ms have
    passed (1200 ms, say) the recorded time has no influence: whatever key
    comes then (a [k], say) selects exactly what it would have selected
    without the earlier [g]. *)
Theorem first_and_last_jumps :
  (forall br ev (p : Clamped.Page),
      inside_input br = false -> last_key ev = true -> Clamped.results p <> [] ->
      Clamped.index (Clamped.handleKeyDown br ev p) =
        Z.of_nat (length (Clamped.results p)) - 1) /\
  (forall br1 br2 ev1 ev2 (p : Clamped.Page),
      inside_input br1 = false -> inside_input br2 = false ->
      first_key ev1 = true -> first_key ev2 = true ->
      Date_now br2 < Date_now br1 + 1000 ->
      Clamped.index
        (Clamped.handleKeyDown br2 ev2 (Clamped.handleKeyDown br1 ev1 p)) = 0) /\
  (forall br ev (p : Clamped.Page),
      inside_input br = false -> first_key ev = true ->
      Clamped.lastGKeyPress p + 1000 <= Date_now br ->
      Clamped.handleKeyDown br ev p =
        Clamped.set_lastGKeyPress (Date_now br)
          (Clamped.on_document (emit preventDefault) p)) /\
  (forall brg brk evg evk (p : Clamped.Page),
      inside_input brg = false -> first_key evg = true ->
      Clamped.lastGKeyPress p + 1000 <= Date_now brg ->
      Date_now brg + 1000 <= Date_now brk ->
      same_selection
        (Clamped.handleKeyDown brk evk (Clamped.handleKeyDown brg evg p))
        (Clamped.handleKeyDown brk evk p)).
Proof.
  assert (Hlone : forall br ev (p : Clamped.Page),
      inside_input br = false -> first_key ev = true ->
      Clamped.lastGKeyPress p + 1000 <= Date_now br ->
      Clamped.handleKeyDown br ev p =
        Clamped.set_lastGKeyPress (Date_now br)
          (Clamped.on_document (emit preventDefault) p)).
  { intros br ev p Hin Hk Hold. unfold first_key in Hk.
    apply andb_prop in Hk as [Hg Hshift]. apply negb_true_iff in Hshift.
    rewrite clamped_g_press by assumption. cbv zeta. rewrite Hshift.
    change (Clamped.lastGKeyPress (Clamped.on_document (emit preventDefault) p))
      with (Clamped.lastGKeyPress p).
    assert (Hf : (Date_now br <? Clamped.lastGKeyPress p + 1000) = false)
      by (apply Z.ltb_ge; lia).
    now rewrite Hf. }
  split; [|split; [|split]].
  - intros br ev p Hin Hk Hne. unfold last_key in Hk.
    apply andb_prop in Hk as [Hg Hshift].
    rewrite clamped_g_press by assumption. cbv zeta. rewrite Hshift.
    now rewrite clamped_highlight_index.
  - intros br1 br2 ev1 ev2 p Hin1 Hin2 Hk1 Hk2 Hnear.
    pose proof Hk1 as Hk1'. pose proof Hk2 as Hk2'.
    unfold first_key in Hk1, Hk2.
    apply andb_prop in Hk1 as [Hg1 Hs1]. apply andb_prop in Hk2 as [Hg2 Hs2].
    apply negb_true_iff in Hs1, Hs2.
    destruct (Date_now br1 <? Clamped.lastGKeyPress p + 1000) eqn:Hf1.
    + (* the first press already counts as a second one *)
      set (p1 := Clamped.handleKeyDown br1 ev1 p).
      assert (Hi1 : Clamped.index p1 = 0).
      { unfold p1. rewrite clamped_g_press by assumption. cbv zeta. rewrite Hs1.
        change (Clamped.lastGKeyPress (Clamped.on_document (emit preventDefault) p))
          with (Clamped.lastGKeyPress p).
        rewrite Hf1. now rewrite clamped_highlight_index. }
      rewrite clamped_g_press by assumption. cbv zeta. rewrite Hs2.
      destruct (Date_now br2 <? _).
      * now rewrite clamped_highlight_index.
      * exact Hi1.
    + rewrite (Hlone br1 ev1 p) by (try assumption; apply Z.ltb_ge in Hf1; lia).
      rewrite clamped_g_press by assumption. cbv zeta. rewrite Hs2.
      change (Clamped.lastGKeyPress
                (Clamped.on_document (emit preventDefault)
                   (Clamped.set_lastGKeyPress (Date_now br1)
                      (Clamped.on_document (emit preventDefault) p))))
        with (Date_now br1).
      assert (Hf2 : (Date_now br2 <? Date_now br1 + 1000) = true)
        by (apply Z.ltb_lt; lia).
      rewrite Hf2. now rewrite clamped_highlight_index.
  - exact Hlone.
  - intros brg brk evg evk p Hin Hk Hold Hlate.
    rewrite (Hlone brg evg p) by assumption.
    apply same_selection_key.
    + now split.
    + change (Clamped.lastGKeyPress
                (Clamped.set_lastGKeyPress (Date_now brg)
                   (Clamped.on_document (emit preventDefault) p)))
        with (Date_now brg).
      assert (H1 : (Date_now brk <? Date_now brg + 1000) = false)
        by (apply Z.ltb_ge; lia).
      assert (H2 : (Date_now brk <? Clamped.lastGKeyPress p + 1000) = false)
        by (apply Z.ltb_ge; lia).
      now rewrite H1, H2.
Qed.

Lemma first_and_last_jumps_witness :
  let p := clamped_page five_results 2 {| marked := [3]%nat; marked_outside := []; trace := [] |} in
  Clamped.index (Clamped.handleKeyDown (browser_at 5000) (shift_press "G") p) = 4 /\
  Clamped.index
    (Clamped.handleKeyDown (browser_at 5999) (press "g")
       (Clamped.handleKeyDown (browser_at 5000) (press "g") p)) = 0 /\
  Clamped.handleKeyDown (browser_at 5000) (press "g") p =
    Clamped.set_lastGKeyPress 5000 (Clamped.on_document (emit preventDefault) p) /\
  same_selection
    (Clamped.handleKeyDown (browser_at 6200) (press "k")
       (Clamped.handleKeyDown (browser_at 5000) (press "g") p))
    (Clamped.handleKeyDown (browser_at 6200) (press "k") p).
Proof.
  intros p.
  destruct first_and_last_jumps as (Hlast & Hfirst & Hlone & Hstale).
  split; [|split; [|split]].
  - apply (Hlast (browser_at 5000) (shift_press "G") p);
      [reflexivity|reflexivity|discriminate].
  - apply (Hfirst (browser_at 5000) (browser_at 5999) (press "g") (press "g") p);
      try reflexivity.
  - apply (Hlone (browser_at 5000) (press "g") p); [reflexivity|reflexivity|].
    simpl. lia.
  - apply (Hstale (browser_at 5000) (browser_at 6200) (press "g") (press "k") p);
      [reflexivity|reflexivity| |]; simpl; lia.
Defined.

(** ** C4: a cursor past the end of the list *)

Section PastTheEnd.

Lemma js_index_past_end {A} (l : list A) i :
  Z.of_nat (length l) <= i -> js_index l i = None.
Proof.
  intros H. unfold js_index. destruct (0 <=? i); [|reflexivity].
  apply lookup_ge_None_2. lia.
Qed.

Lemma inert_refl d : inert d d.
Proof. now repeat split. Qed.

Lemma inert_emit_all d d0 es :
  inert d d0 -> dom_writes es = [] -> navigations es = [] ->
  inert d (emit_all es d0).
Proof.
  intros (Hm & Hw & Hn) Hes1 Hes2. unfold inert, emit_all. simpl.
  split; [exact Hm|].
  unfold dom_writes, navigations in *. rewrite !List.filter_app.
  rewrite Hes1, Hes2, !app_nil_r. now split.
Qed.

Lemma inert_emit d d0 e :
  inert d d0 -> is_dom_write e = false -> is_navigation e = false ->
  inert d (emit e d0).
Proof.
  intros H He1 He2. apply (inert_emit_all d d0 [e] H).
  - unfold dom_writes. simpl. now rewrite He1.
  - unfold navigations. simpl. now rewrite He2.
Qed.

Lemma clamped_refreshed_inert searchElement p :
  inert (Clamped.document p) (Clamped.document (clamped_refreshed searchElement p)).
Proof.
  unfold clamped_refreshed. simpl. apply inert_emit_all; [apply inert_refl| |].
  - apply reports_no_dom_write, extract_reports.
  - apply reports_no_navigation, extract_reports.
Qed.

Lemma wrap_refreshed_inert searchElement p :
  inert (Wrap.document p) (Wrap.document (wrap_refreshed searchElement p)).
Proof.
  unfold wrap_refreshed. simpl. apply inert_emit_all; [apply inert_refl| |].
  - apply reports_no_dom_write, extract_reports.
  - apply reports_no_navigation, extract_reports.
Qed.

(** [highlightSelected] of [content.js] with the cursor past the end:
    silent on an empty list, one report otherwise; no other call. *)
Lemma clamped_highlight_past_end br p :
  Clamped.size p <= Clamped.index p ->
  Clamped.highlightSelected br p =
  if Clamped.size p =? 0 then p
  else Clamped.on_document
         (emit (undefined_report [Clamped.size p; Clamped.index p])) p.
Proof.
  intros H. unfold Clamped.highlightSelected.
  destruct (Clamped.size p =? 0); [reflexivity|].
  unfold Clamped.size in H. now rewrite js_index_past_end.
Qed.

Lemma wrap_highlight_past_end br p i :
  Wrap.index p = Wrap.Num i -> Z.of_nat (length (Wrap.results p)) <= i ->
  Wrap.highlightSelected br p = Wrap.on_document (emit (undefined_report [])) p.
Proof.
  intros Hi H. unfold Wrap.highlightSelected. rewrite Hi. simpl.
  now rewrite js_index_past_end.
Qed.

End PastTheEnd.

(** C4, as the code has it.  With [selectedIndex >= results.length] (an
    empty or shrunk list) [highlightSelected] and the activation handlers
    touch no entry and return without acting: the script's state and the
    markers stay as they are and the trace gains no scroll, no marker update
    and no navigation.  The activation handlers of both revisions and the
    earlier revision's [highlightSelected] report the missing entry;
    [highlightSelected] of [content.js] reports it on a non-empty list and
    returns silently on an empty one.  A refresh whose new list is no longer
    than the cursor replaces the list, logs what the extractor reported,
    and does not act either: the earlier revision runs the highlight, which
    reports; [content.js] runs it only when [shouldHighlight] holds, and it
    reports only if the new list is non-empty. *)
Theorem past_the_end_no_action br :
  (forall (p : Clamped.Page),
      Clamped.size p <= Clamped.index p ->
      Clamped.highlightSelected br p =
        (if Clamped.size p =? 0 then p
         else Clamped.on_document
                (emit (undefined_report [Clamped.size p; Clamped.index p])) p) /\
      inert (Clamped.document p) (Clamped.document (Clamped.highlightSelected br p))) /\
  (forall (p : Wrap.Page) i,
      Wrap.index p = Wrap.Num i -> Z.of_nat (length (Wrap.results p)) <= i ->
      Wrap.highlightSelected br p = Wrap.on_document (emit (undefined_report [])) p /\
      inert (Wrap.document p) (Wrap.document (Wrap.highlightSelected br p))) /\
  (forall ev (p : Clamped.Page),
      inside_input br = false -> activate_key ev = true ->
      Clamped.size p <= Clamped.index p ->
      Clamped.handleKeyDown br ev p =
        Clamped.on_document (emit (undefined_report []))
          (Clamped.on_document (emit preventDefault) p) /\
      inert (Clamped.document p) (Clamped.document (Clamped.handleKeyDown br ev p))) /\
  (forall ev (p : Wrap.Page) i,
      inside_input br = false -> activate_key ev = true ->
      Wrap.index p = Wrap.Num i -> Z.of_nat (length (Wrap.results p)) <= i ->
      Wrap.handleKeyDown br ev p =
        Wrap.on_document (emit (undefined_report []))
          (Wrap.on_document (emit preventDefault) p) /\
      inert (Wrap.document p) (Wrap.document (Wrap.handleKeyDown br ev p))) /\
  (forall searchElement (p : Clamped.Page),
      let found := fst (extractSearchResults searchElement) in
      Z.of_nat (length found) <= Clamped.index p ->
      Clamped.handleSearchResultsChanged br searchElement p =
        (if Clamped.shouldHighlight p && negb (Z.of_nat (length found) =? 0)
         then Clamped.on_document
                (emit (undefined_report [Z.of_nat (length found); Clamped.index p]))
                (clamped_refreshed searchElement p)
         else clamped_refreshed searchElement p) /\
      inert (Clamped.document p)
        (Clamped.document (Clamped.handleSearchResultsChanged br searchElement p))) /\
  (forall searchElement (p : Wrap.Page) i,
      Wrap.index p = Wrap.Num i ->
      Z.of_nat (length (fst (extractSearchResults searchElement))) <= i ->
      Wrap.handleSearchResultsChanged br searchElement p =
        Wrap.on_document (emit (undefined_report [])) (wrap_refreshed searchElement p) /\
      inert (Wrap.document p)
        (Wrap.document (Wrap.handleSearchResultsChanged br searchElement p))).
Proof.
  split; [|split; [|split; [|split; [|split]]]].
  - intros p H. rewrite clamped_highlight_past_end by assumption.
    split; [reflexivity|].
    destruct (Clamped.size p =? 0); [apply inert_refl|].
    simpl. apply inert_emit; [apply inert_refl|reflexivity|reflexivity].
  - intros p i Hi H. rewrite (wrap_highlight_past_end br p i) by assumption.
    split; [reflexivity|].
    simpl. apply inert_emit; [apply inert_refl|reflexivity|reflexivity].
  - intros ev p Hin Hk H. rewrite clamped_activate by assumption. cbv zeta.
    change (Clamped.results (Clamped.on_document (emit preventDefault) p))
      with (Clamped.results p).
    change (Clamped.index (Clamped.on_document (emit preventDefault) p))
      with (Clamped.index p).
    unfold Clamped.size in H. rewrite js_index_past_end by assumption.
    split; [reflexivity|]. simpl.
    repeat (apply inert_emit; [|reflexivity|reflexivity]). apply inert_refl.
  - intros ev p i Hin Hk Hi H. rewrite wrap_activate by assumption. cbv zeta.
    change (Wrap.results (Wrap.on_document (emit preventDefault) p))
      with (Wrap.results p).
    change (Wrap.index (Wrap.on_document (emit preventDefault) p))
      with (Wrap.index p).
    rewrite Hi. simpl. rewrite js_index_past_end by assumption.
    split; [reflexivity|]. simpl.
    repeat (apply inert_emit; [|reflexivity|reflexivity]). apply inert_refl.
  - intros searchElement p found H. rewrite clamped_refresh_unfold.
    destruct (Clamped.shouldHighlight p); simpl.
    + rewrite clamped_highlight_past_end by exact H.
      change (Clamped.size (clamped_refreshed searchElement p))
        with (Z.of_nat (length found)).
      change (Clamped.index (clamped_refreshed searchElement p))
        with (Clamped.index p).
      destruct (Z.of_nat (length found) =? 0); simpl.
      * split; [reflexivity|apply clamped_refreshed_inert].
      * split; [reflexivity|].
        apply inert_emit; [apply clamped_refreshed_inert|reflexivity|reflexivity].
    + split; [reflexivity|apply clamped_refreshed_inert].
  - intros searchElement p i Hi H. rewrite wrap_refresh_unfold.
    rewrite (wrap_highlight_past_end br _ i); [|exact Hi|exact H].
    split; [reflexivity|]. simpl.
    apply inert_emit; [apply wrap_refreshed_inert|reflexivity|reflexivity].
Qed.

Lemma past_the_end_no_action_witness :
  let shrunk := container_of (firstn 2 five_results) in
  let pc := clamped_page five_results 5 {| marked := [5]%nat; marked_outside := []; trace := [] |} in
  let pw := wrap_page five_results (Wrap.Num 4) {| marked := [5]%nat; marked_outside := []; trace := [] |} in
  inert (Clamped.document pc)
    (Clamped.document (Clamped.highlightSelected (browser_at 5000) pc)) /\
  inert (Clamped.document pc)
    (Clamped.document (Clamped.handleKeyDown (browser_at 5000) (press "Enter") pc)) /\
  inert (Clamped.document pc)
    (Clamped.document (Clamped.handleSearchResultsChanged (browser_at 5000) shrunk pc)) /\
  Wrap.handleSearchResultsChanged (browser_at 5000) shrunk pw =
    Wrap.on_document (emit (undefined_report [])) (wrap_refreshed shrunk pw).
Proof.
  intros shrunk pc pw.
  destruct (past_the_end_no_action (browser_at 5000))
    as (Hhc & _ & Hac & _ & Hrc & Hrw).
  split; [|split; [|split]].
  - apply (Hhc pc). unfold Clamped.size, Clamped.index. simpl. lia.
  - apply (Hac (press "Enter") pc); [reflexivity|reflexivity|].
    unfold Clamped.size, Clamped.index. simpl. lia.
  - apply (Hrc shrunk pc). unfold Clamped.index. simpl. lia.
  - apply (Hrw shrunk pw 4); [reflexivity|]. simpl. lia.
Defined.

(** C4 as stated fails in [content.js]: a refresh empties a list of five
    with the cursor on the last entry, so [selectedIndex = 4] points past
    the end of the empty list; neither the refresh nor a run of
    [highlightSelected] on that page reports anything. *)
Lemma highlight_silent_on_empty_list :
  let p := Clamped.handleSearchResultsChanged (browser_at 5000) (container_of [])
             (clamped_page five_results 4 {| marked := [5]%nat; marked_outside := []; trace := [] |}) in
  Clamped.results p = [] /\
  Clamped.size p <= Clamped.index p /\
  reports (trace (Clamped.document p)) = [] /\
  reports (trace (Clamped.document (Clamped.highlightSelected (browser_at 5000) p))) = [].
Proof.
  cbv zeta. split; [reflexivity|]. split; [|split; reflexivity].
  apply Z.leb_le. reflexivity.
Qed.

(** ** C7: what the extractor returns *)

Section ExtractorDesign.

(** The entry of a heading in the code against the design: they agree as
    soon as some element of the chain carries [lang]; without any, the
    code still keeps the top of the chain when that is a [DIV]. *)
Lemma entry_of_spec heading :
  entry_of heading =
  match List.find has_lang (ancestors_or_self heading) with
  | Some block => if is_div block then Some block else None
  | None => if is_div (chain_root heading) then Some (chain_root heading) else None
  end.
Proof.
  unfold entry_of. rewrite climb_spec.
  destruct (List.find has_lang (ancestors_or_self heading)); reflexivity.
Qed.

Lemma entry_of_by_design heading :
  (exists block, List.find has_lang (ancestors_or_self heading) = Some block) \/
  is_div (chain_root heading) = false ->
  entry_of heading = entry_by_design heading.
Proof.
  intros H. rewrite entry_of_spec. unfold entry_by_design.
  destruct (List.find has_lang (ancestors_or_self heading)); [reflexivity|].
  destruct H as [[block Hb]|Hroot]; [discriminate|]. now rewrite Hroot.
Qed.

(** A heading is reported exactly when no element of its chain carries
    [lang]. *)
Lemma climb_reports_iff heading :
  snd (climb heading) = [console_error "Parent element is null" []] <->
  List.find has_lang (ancestors_or_self heading) = None.
Proof.
  rewrite climb_spec.
  destruct (List.find has_lang (ancestors_or_self heading)); simpl;
    split; intros H; try discriminate; reflexivity.
Qed.

(** Where every chain ends in something else than a [DIV] (in a document:
    the [HTML] element), or holds a [lang], the extractor returns the
    entries of the design, in heading order. *)
Lemma extract_by_design searchElement :
  Forall (fun heading =>
            (exists block, List.find has_lang (ancestors_or_self heading) = Some block) \/
            is_div (chain_root heading) = false)
         (querySelectorAll_h3 searchElement) ->
  fst (extractSearchResults searchElement) =
  omap entry_by_design (querySelectorAll_h3 searchElement).
Proof.
  intros H. rewrite extract_spec. simpl.
  induction H as [|h hs Hh Hhs IH]; [reflexivity|].
  cbn. rewrite (entry_of_by_design h Hh).
  destruct (entry_by_design h); [f_equal|]; exact IH.
Qed.

End ExtractorDesign.

(** C7 fails on a container that has no parent.  The one heading of
    [detached_search] has no [lang] on its chain; the design skips it, so
    the list of entries is empty.  The code reports "Parent element is
    null", leaves the climb at the container, finds it to be a [DIV] and
    returns it as a result entry. *)
Theorem parentless_div_is_kept :
  extractSearchResults detached_search =
    ([self detached_search], [console_error "Parent element is null" []]) /\
  omap entry_by_design (querySelectorAll_h3 detached_search) = [].
Proof. split; reflexivity. Qed.

(** ** Boundary cases, run on concrete pages *)

(** The pair test of [first] is strict: a second [g] exactly 1000 ms after
    the first does not jump, it records its own time. *)
Example second_g_after_exactly_1000ms :
  let p := clamped_page five_results 2 blank in
  let p' := Clamped.handleKeyDown (browser_at 6000) (press "g")
              (Clamped.handleKeyDown (browser_at 5000) (press "g") p) in
  Clamped.index p' = 2 /\ Clamped.lastGKeyPress p' = 6000.
Proof. split; reflexivity. Qed.

(** [last] on an empty list leaves the cursor at [-1]. *)
Example last_on_empty_list :
  Clamped.index
    (Clamped.handleKeyDown (browser_at 5000) (shift_press "G") (clamped_page [] 0 blank)) = -1.
Proof. reflexivity. Qed.

(** In the wrapping revision a move key on an empty list takes the
    remainder by zero: the cursor becomes [NaN] and stays so, also once
    results have arrived. *)
Example wrap_move_on_empty_list :
  let p := Wrap.handleKeyDown (browser_at 5000) (press "j") (wrap_page [] (Wrap.Num 0) blank) in
  Wrap.index p = Wrap.NaN /\
  Wrap.index
    (Wrap.handleKeyDown (browser_at 5100) (press "j")
       (Wrap.handleSearchResultsChanged (browser_at 5050) (container_of five_results) p))
  = Wrap.NaN.
Proof. split; reflexivity. Qed.

(** An attached container: headings under blocks with [lang] give their
    blocks, in order; a heading hanging directly under the [HTML] root,
    which carries [lang], is dropped without report; so is a heading that
    carries [lang] itself. *)
Example extract_attached_container :
  extractSearchResults
    (mkContainer (mkElement 50 "DIV" None None true (Some html_root))
       [heading_of 201 (result_block 1 "https://a.example/");
        mkElement 202 "H3" None None true (Some html_root);
        mkElement 203 "H3" (Some "en") None true (Some (result_block 2 "https://b.example/"));
        heading_of 204 (result_block 3 "https://c.example/")])
  = ([result_block 1 "https://a.example/"; result_block 3 "https://c.example/"], []).
Proof. reflexivity. Qed.

(** * Further properties *)

(** ** Waiting for the container *)

Section Wait.

Implicit Types (w : Waiting) (ns : list Node) (batches : list (list MutationRecord)).

Lemma observer_callback_concat (mutationList : list MutationRecord) w :
  observer_callback mutationList w = inspect_all (concat mutationList) w.
Proof.
  unfold observer_callback, inspect_all. revert w.
  induction mutationList as [|m ms IH]; intros w; simpl; [reflexivity|].
  rewrite fold_left_app. apply IH.
Qed.

Lemma inspect_match node w :
  is_search_div node = true ->
  inspect node w =
  {| promise := resolve (Some node) (promise w); observing := false; console := console w |}.
Proof.
  unfold is_search_div, inspect. intros H. apply andb_prop in H as [Hd Hi].
  now rewrite Hd, Hi.
Qed.

Lemma inspect_other node w : is_search_div node = false -> inspect node w = w.
Proof.
  unfold is_search_div, inspect. intros H.
  destruct (is_HTMLDivElement node); simpl in *; [now rewrite H|reflexivity].
Qed.

Lemma inspect_all_promise ns w :
  promise (inspect_all ns w) =
  match promise w with
  | Resolved v => Resolved v
  | Pending =>
      match List.find is_search_div ns with
      | Some node => Resolved (Some node)
      | None => Pending
      end
  end.
Proof.
  unfold inspect_all. revert w. induction ns as [|n ns IH]; intros w; simpl.
  - now destruct (promise w).
  - rewrite IH. destruct (is_search_div n) eqn:E.
    + rewrite inspect_match by assumption. simpl. now destruct (promise w).
    + now rewrite inspect_other.
Qed.

Lemma inspect_all_observing ns w :
  observing (inspect_all ns w) =
  if existsb is_search_div ns then false else observing w.
Proof.
  unfold inspect_all. revert w. induction ns as [|n ns IH]; intros w; simpl.
  - reflexivity.
  - rewrite IH. destruct (is_search_div n) eqn:E; simpl.
    + rewrite inspect_match by assumption. simpl. now destruct (existsb _ ns).
    + now rewrite inspect_other.
Qed.

Lemma inspect_all_console ns w : console (inspect_all ns w) = console w.
Proof.
  unfold inspect_all. revert w. induction ns as [|n ns IH]; intros w; simpl.
  - reflexivity.
  - rewrite IH. unfold inspect.
    destruct (negb _); [reflexivity|]. now destruct (String.eqb _ _).
Qed.

Lemma find_none_existsb {A} (f : A -> bool) l :
  List.find f l = None <-> existsb f l = false.
Proof.
  induction l as [|x l IH]; simpl; [tauto|].
  destruct (f x); simpl; [split; discriminate|exact IH].
Qed.

Lemma deliver_consistent mutationList w :
  wait_consistent w -> wait_consistent (deliver mutationList w).
Proof.
  intros H. unfold deliver. destruct H as [[Ho Hp]|[Ho Hp]]; rewrite Ho; [|now right].
  rewrite observer_callback_concat. unfold wait_consistent.
  rewrite inspect_all_observing, inspect_all_promise, Ho, Hp.
  destruct (List.find is_search_div (concat mutationList)) as [n|] eqn:E.
  - right. split; [|eauto].
    destruct (existsb is_search_div (concat mutationList)) eqn:E'; [reflexivity|].
    apply find_none_existsb in E'. congruence.
  - left. apply find_none_existsb in E. now rewrite E.
Qed.

Lemma deliver_settled mutationList w :
  observing w = false -> deliver mutationList w = w.
Proof. intros H. unfold deliver. now rewrite H. Qed.

Lemma deliver_all_settled batches w :
  observing w = false -> deliver_all batches w = w.
Proof.
  unfold deliver_all. revert w.
  induction batches as [|b bs IH]; intros w H; simpl; [reflexivity|].
  rewrite deliver_settled by assumption. now apply IH.
Qed.

Lemma find_app {A} (f : A -> bool) l1 l2 :
  List.find f (l1 ++ l2) =
  match List.find f l1 with Some x => Some x | None => List.find f l2 end.
Proof.
  induction l1 as [|x l1 IH]; simpl; [reflexivity|]. now destruct (f x).
Qed.

(** A connected, pending wait after any number of batches. *)
Lemma deliver_all_pending batches w :
  observing w = true -> promise w = Pending ->
  promise (deliver_all batches w) =
    match List.find is_search_div (added_nodes batches) with
    | Some node => Resolved (Some node)
    | None => Pending
    end /\
  observing (deliver_all batches w) = negb (existsb is_search_div (added_nodes batches)) /\
  console (deliver_all batches w) = console w.
Proof.
  unfold deliver_all, added_nodes. revert w.
  induction batches as [|b bs IH]; intros w Ho Hp; simpl.
  - now rewrite Ho, Hp.
  - rewrite concat_app, find_app, existsb_app.
    assert (Hc : wait_consistent (deliver b w)).
    { apply deliver_consistent. left. now split. }
    assert (Hpb : promise (deliver b w) =
                  match List.find is_search_div (concat b) with
                  | Some node => Resolved (Some node) | None => Pending end).
    { unfold deliver. rewrite Ho, observer_callback_concat, inspect_all_promise.
      now rewrite Hp. }
    assert (Hcb : console (deliver b w) = console w).
    { unfold deliver. rewrite Ho, observer_callback_concat. apply inspect_all_console. }
    destruct (List.find is_search_div (concat b)) as [n|] eqn:E.
    + destruct Hc as [[_ Hp']|[Ho' _]]; [congruence|].
      fold (deliver_all bs (deliver b w)).
      rewrite deliver_all_settled by assumption.
      assert (He : existsb is_search_div (concat b) = true).
      { destruct (existsb is_search_div (concat b)) eqn:E'; [reflexivity|].
        apply find_none_existsb in E'. congruence. }
      rewrite He. simpl. now repeat split.
    + destruct Hc as [[Ho' Hp']|[_ [v Hv]]]; [|congruence].
      apply find_none_existsb in E. rewrite E. simpl.
      destruct (IH (deliver b w) Ho' Hp') as (H1 & H2 & H3).
      rewrite H1, H2, H3. now repeat split.
Qed.

End Wait.

(** X1.  When [#search] is not in the document at the call, the promise of
    [waitForSearchElement] stays pending as long as no added node is itself
    an [HTMLDivElement] with id [search]; it settles with the first such
    node, in the order of the batches, records and nodes, and the observer
    is connected exactly as long as the promise is pending.  Nothing is
    written to the console. *)
Theorem wait_settles_with_first_match (batches : list (list MutationRecord)) :
  let w := deliver_all batches (waitForSearchElement None) in
  promise w =
    match List.find is_search_div (added_nodes batches) with
    | Some node => Resolved (Some node)
    | None => Pending
    end /\
  (observing w = true <-> promise w = Pending) /\
  console w = [].
Proof.
  intros w. subst w.
  destruct (deliver_all_pending batches (waitForSearchElement None) eq_refl eq_refl)
    as (Hp & Ho & Hc).
  rewrite Hp, Ho, Hc. split; [reflexivity|]. split; [|reflexivity].
  destruct (List.find is_search_div (added_nodes batches)) as [n|] eqn:E.
  - assert (He : existsb is_search_div (added_nodes batches) = true).
    { destruct (existsb is_search_div (added_nodes batches)) eqn:E'; [reflexivity|].
      apply find_none_existsb in E'. congruence. }
    rewrite He. simpl. split; discriminate.
  - apply find_none_existsb in E. rewrite E. simpl. now split.
Qed.

(** X2.  When [document.getElementById("search")] finds an element, the
    promise settles before [waitForSearchElement] returns and no later
    mutation changes it: with the element if it is an [HTMLDivElement],
    otherwise with [null] after the report "Expected search element to be a
    div".  The observer is disconnected from then on. *)
Theorem wait_settles_at_once (found : Node) (batches : list (list MutationRecord)) :
  let w := deliver_all batches (waitForSearchElement (Some found)) in
  promise w = Resolved (if is_HTMLDivElement found then Some found else None) /\
  observing w = false /\
  console w =
    (if is_HTMLDivElement found then []
     else [console_error "Expected search element to be a div" []]).
Proof.
  intros w. subst w. rewrite deliver_all_settled.
  - unfold waitForSearchElement. destruct (is_HTMLDivElement found); now repeat split.
  - unfold waitForSearchElement. now destruct (is_HTMLDivElement found).
Qed.

(** X3.  The promise settles at most once, and only with [null] or with an
    [HTMLDivElement]: once it is settled after some batches, it has the same
    value after any further batches; a node it settles with is an
    [HTMLDivElement], and [null] comes only from an element found at the
    call that is not one. *)
Theorem wait_settles_once (alreadyExists : option Node)
    (batches more : list (list MutationRecord)) (v : option Node) :
  promise (deliver_all batches (waitForSearchElement alreadyExists)) = Resolved v ->
  promise (deliver_all (batches ++ more) (waitForSearchElement alreadyExists)) = Resolved v /\
  match v with
  | Some node => is_HTMLDivElement node = true
  | None => exists found, alreadyExists = Some found /\ is_HTMLDivElement found = false
  end.
Proof.
  intros H. destruct alreadyExists as [found|].
  - assert (Ho : observing (waitForSearchElement (Some found)) = false).
    { unfold waitForSearchElement. now destruct (is_HTMLDivElement found). }
    rewrite deliver_all_settled in * by exact Ho.
    split; [exact H|].
    unfold waitForSearchElement in H.
    destruct (is_HTMLDivElement found) eqn:E; simpl in H; injection H as <-; eauto.
  - destruct (deliver_all_pending batches (waitForSearchElement None) eq_refl eq_refl)
      as (Hp & _).
    destruct (deliver_all_pending (batches ++ more) (waitForSearchElement None)
                eq_refl eq_refl) as (Hp' & _).
    rewrite Hp in H. rewrite Hp'.
    unfold added_nodes in *. rewrite concat_app, concat_app, find_app.
    destruct (List.find is_search_div (concat (concat batches))) as [n|] eqn:E;
      [|discriminate].
    injection H as <-. split; [reflexivity|].
    apply List.find_some in E as [_ E]. unfold is_search_div in E.
    now apply andb_prop in E as [E _].
Qed.

Lemma wait_settles_once_witness :
  promise
    (deliver_all ([[[other_div; search_span]; [search_div]]] ++ [[[second_search_div]]])
       (waitForSearchElement None)) = Resolved (Some search_div) /\
  is_HTMLDivElement search_div = true.
Proof.
  apply (wait_settles_once None [[[other_div; search_span]; [search_div]]]
           [[[second_search_div]]] (Some search_div)).
  reflexivity.
Defined.

(** ** [main] and the event loop *)

Section MainLoop.

Context {Page : Type}.
Variable hk : Browser -> KeyboardEvent -> Page -> Page.
Variable hc : Browser -> HTMLDivElement -> Page -> Page.
Variable ce : string -> Page -> Page.

Local Abbreviation dispatch' := (dispatch hk hc ce).
Local Abbreviation run' := (run hk hc ce).

Lemma dispatch_listening e (s : Script) n :
  phase s = Listening n ->
  phase (dispatch' e s) = Listening n.
Proof.
  intros H. destruct e; simpl; unfold resume; simpl; rewrite H; try reflexivity.
Qed.

Lemma run_listening events (s : Script) n :
  phase s = Listening n -> phase (run' events s) = Listening n.
Proof.
  unfold run. revert s. induction events as [|e es IH]; intros s H; simpl; [exact H|].
  apply IH. now apply dispatch_listening.
Qed.

Lemma dispatch_gave_up e (s : Script) :
  phase s = GaveUp ->
  phase (dispatch' e s) = GaveUp /\ page (dispatch' e s) = page s.
Proof.
  intros H. destruct e; simpl; unfold resume; simpl; rewrite H; now split.
Qed.

Lemma run_gave_up events (s : Script) :
  phase s = GaveUp ->
  phase (run' events s) = GaveUp /\ page (run' events s) = page s.
Proof.
  unfold run. revert s. induction events as [|e es IH]; intros s H; simpl; [now split|].
  destruct (dispatch_gave_up e s H) as [Hp Hpg].
  destruct (IH _ Hp) as [H1 H2]. split; [exact H1|congruence].
Qed.

(** One turn of the loop while [main] is suspended: it stays suspended with
    the page untouched, or it gives up after its report, or it registers
    its listeners, with the page untouched. *)
Lemma dispatch_awaiting e (s : Script) :
  phase s = Awaiting ->
  (phase (dispatch' e s) = Awaiting /\ page (dispatch' e s) = page s) \/
  (phase (dispatch' e s) = GaveUp /\
   page (dispatch' e s) = ce "Search element not found" (page s)) \/
  (exists n, phase (dispatch' e s) = Listening n /\ page (dispatch' e s) = page s).
Proof.
  intros H. destruct e; simpl; unfold resume; simpl; rewrite H; auto.
  destruct (promise (deliver mutationList (waiting s))) as [|[n|]]; simpl; eauto.
Qed.

Lemma run_still_awaiting events (s : Script) :
  phase (run' events s) = Awaiting ->
  phase s = Awaiting /\ page (run' events s) = page s.
Proof.
  unfold run. revert s. induction events as [|e es IH]; intros s H; simpl in *; [now split|].
  destruct (IH _ H) as [Hp Hpg].
  destruct (phase s) eqn:E.
  - split; [reflexivity|].
    destruct (dispatch_awaiting e s E) as [[_ H1]|[[H1 _]|[n [H1 _]]]]; congruence.
  - destruct (dispatch_gave_up e s E) as [H1 _]. congruence.
  - rewrite (dispatch_listening e s _ E) in Hp. discriminate.
Qed.

Lemma run_ends_gave_up events (s : Script) :
  phase s = Awaiting -> phase (run' events s) = GaveUp ->
  page (run' events s) = ce "Search element not found" (page s).
Proof.
  unfold run. revert s. induction events as [|e es IH]; intros s Hs H; simpl in *;
    [congruence|].
  destruct (dispatch_awaiting e s Hs) as [[H1 H2]|[[H1 H2]|[n [H1 H2]]]].
  - rewrite (IH _ H1 H), H2. reflexivity.
  - destruct (run_gave_up es _ H1) as [_ H3]. unfold run in H3. rewrite H3. exact H2.
  - pose proof (run_listening es _ n H1) as H3. unfold run in H3. congruence.
Qed.

(** The phase reached from a suspended [main] whose wait is still on. *)
Lemma run_phase_awaiting events (s : Script) :
  phase s = Awaiting -> observing (waiting s) = true -> promise (waiting s) = Pending ->
  phase (run' events s) =
  match List.find is_search_div (added_nodes (document_batches events)) with
  | Some n => Listening n
  | None => Awaiting
  end.
Proof.
  unfold run. revert s.
  induction events as [|e es IH]; intros s Hs Ho Hp; simpl; [exact Hs|].
  destruct e as [mutationList|br event|br searchElement].
  - unfold added_nodes. simpl. rewrite concat_app, find_app. fold (added_nodes (document_batches es)).
    assert (Hpb : promise (deliver mutationList (waiting s)) =
                  match List.find is_search_div (concat mutationList) with
                  | Some node => Resolved (Some node) | None => Pending end).
    { unfold deliver. rewrite Ho, observer_callback_concat, inspect_all_promise.
      now rewrite Hp. }
    assert (Hob : observing (deliver mutationList (waiting s)) =
                  negb (existsb is_search_div (concat mutationList))).
    { unfold deliver. rewrite Ho, observer_callback_concat, inspect_all_observing.
      rewrite Ho. now destruct (existsb _ _). }
    destruct (List.find is_search_div (concat mutationList)) as [n|] eqn:E.
    + apply (run_listening es). unfold resume. simpl. now rewrite Hs, Hpb.
    + rewrite IH; [reflexivity| | |].
      * unfold resume. simpl. now rewrite Hs, Hpb.
      * unfold resume. simpl. rewrite Hs, Hpb. simpl. rewrite Hob.
        apply find_none_existsb in E. now rewrite E.
      * unfold resume. simpl. now rewrite Hs, Hpb.
  - simpl. rewrite Hs. now apply IH.
  - simpl. rewrite Hs. now apply IH.
Qed.

Lemma run_phase events (alreadyExists : option Node) (p0 : Page) :
  phase (run' events (main ce alreadyExists p0)) =
  match alreadyExists with
  | Some found => if is_HTMLDivElement found then Listening found else GaveUp
  | None =>
      match List.find is_search_div (added_nodes (document_batches events)) with
      | Some n => Listening n
      | None => Awaiting
      end
  end.
Proof.
  destruct alreadyExists as [found|].
  - unfold main, waitForSearchElement, resume. simpl.
    destruct (is_HTMLDivElement found); simpl.
    + now apply run_listening.
    + now apply run_gave_up.
  - now apply run_phase_awaiting.
Qed.

Lemma run_page_not_listening events (alreadyExists : option Node) (p0 : Page) :
  (phase (run' events (main ce alreadyExists p0)) = Awaiting ->
   page (run' events (main ce alreadyExists p0)) = p0) /\
  (phase (run' events (main ce alreadyExists p0)) = GaveUp ->
   page (run' events (main ce alreadyExists p0)) = ce "Search element not found" p0).
Proof.
  split; intros H.
  - destruct (run_still_awaiting events _ H) as [H1 H2]. rewrite H2.
    unfold main, waitForSearchElement, resume in *. simpl in *.
    destruct alreadyExists as [found|]; [|reflexivity].
    destruct (is_HTMLDivElement found); simpl in *; discriminate.
  - destruct alreadyExists as [found|].
    + unfold main, waitForSearchElement, resume in *. simpl in *.
      destruct (is_HTMLDivElement found); simpl in *.
      * rewrite (run_listening events _ found) in H by reflexivity. discriminate.
      * now apply run_gave_up.
    + now apply run_ends_gave_up.
Qed.

End MainLoop.

(** X4.  Whether, and on which element, [main] registers its listeners.  If
    [#search] was in the document at load: on it when it is an
    [HTMLDivElement], never otherwise.  If it was not: on the first added
    node that is an [HTMLDivElement] with id [search]; key presses and
    container mutations in between play no part, and no later event changes
    the choice.  (Stated over the handlers, so for both revisions.) *)
Theorem main_listens_on_first_search_div
    (Page : Type) (hk : Browser -> KeyboardEvent -> Page -> Page)
    (hc : Browser -> HTMLDivElement -> Page -> Page) (ce : string -> Page -> Page)
    (events : list PageEvent) (alreadyExists : option Node) (p0 : Page) :
  phase (run hk hc ce events (main ce alreadyExists p0)) =
  match alreadyExists with
  | Some found => if is_HTMLDivElement found then Listening found else GaveUp
  | None =>
      match List.find is_search_div (added_nodes (document_batches events)) with
      | Some n => Listening n
      | None => Awaiting
      end
  end.
Proof. apply run_phase. Qed.

(** X5.  Until [main] has registered its listeners the script is inert:
    while it waits, the page is exactly the initial one whatever keys were
    pressed and whatever the container did; after it gave up, the page is
    the initial one plus the report "Search element not found", for ever.
    Both revisions. *)
Theorem inert_until_listening (events : list PageEvent)
    (alreadyExists : option Node) (d : Document) :
  (phase (clamped_run events (clamped_main alreadyExists d)) = Awaiting ->
   page (clamped_run events (clamped_main alreadyExists d)) = Clamped.init d) /\
  (phase (clamped_run events (clamped_main alreadyExists d)) = GaveUp ->
   page (clamped_run events (clamped_main alreadyExists d)) =
     Clamped.on_document (emit (console_error "Search element not found" []))
       (Clamped.init d)) /\
  (phase (wrap_run events (wrap_main alreadyExists d)) = Awaiting ->
   page (wrap_run events (wrap_main alreadyExists d)) = Wrap.init d) /\
  (phase (wrap_run events (wrap_main alreadyExists d)) = GaveUp ->
   page (wrap_run events (wrap_main alreadyExists d)) =
     Wrap.on_document (emit (console_error "Search element not found" []))
       (Wrap.init d)).
Proof.
  unfold clamped_run, clamped_main, wrap_run, wrap_main.
  pose proof (run_page_not_listening
                Clamped.handleKeyDown Clamped.handleSearchResultsChanged
                (fun msg => Clamped.on_document (emit (console_error msg [])))
                events alreadyExists (Clamped.init d)) as [Hc1 Hc2].
  pose proof (run_page_not_listening
                Wrap.handleKeyDown Wrap.handleSearchResultsChanged
                (fun msg => Wrap.on_document (emit (console_error msg [])))
                events alreadyExists (Wrap.init d)) as [Hw1 Hw2].
  split; [exact Hc1|]. split; [exact Hc2|]. split; [exact Hw1|exact Hw2].
Qed.

Lemma inert_until_listening_witness :
  page (clamped_run
          [KeyPressed (browser_at 5000) (press "j");
           DocumentMutated [[other_div]];
           ContainerMutated (browser_at 5100) (container_of five_results);
           KeyPressed (browser_at 5200) (press "Enter")]
          (clamped_main None blank)) = Clamped.init blank /\
  page (wrap_run
          [KeyPressed (browser_at 5000) (press "j");
           DocumentMutated [[search_div]];
           ContainerMutated (browser_at 5100) (container_of five_results)]
          (wrap_main (Some search_span) blank)) =
    Wrap.on_document (emit (console_error "Search element not found" []))
      (Wrap.init blank).
Proof.
  split.
  - apply (proj1 (inert_until_listening _ None blank)). reflexivity.
  - apply (proj2 (proj2 (proj2 (inert_until_listening _ (Some search_span) blank)))).
    reflexivity.
Defined.

(** ** What the handlers call *)

Section Calls.

Implicit Types (d : Document).

Lemma continues_by_refl allowed d : continues_by allowed d d.
Proof. exists []. split; [symmetry; apply app_nil_r|reflexivity]. Qed.

Lemma continues_by_trans allowed d1 d2 d3 :
  continues_by allowed d1 d2 -> continues_by allowed d2 d3 -> continues_by allowed d1 d3.
Proof.
  intros (c1 & H1 & F1) (c2 & H2 & F2). exists (c1 ++ c2). split.
  - rewrite H2, H1. now rewrite app_assoc.
  - rewrite forallb_app, F1, F2. reflexivity.
Qed.

Lemma continues_by_emit allowed d e : allowed e = true -> continues_by allowed d (emit e d).
Proof. intros H. exists [e]. split; [reflexivity|]. simpl. now rewrite H. Qed.

Lemma continues_by_weaken (a b : Effect -> bool) d d' :
  (forall e, a e = true -> b e = true) -> continues_by a d d' -> continues_by b d d'.
Proof.
  intros Hab (c & H & F). exists c. split; [exact H|].
  apply forallb_forall. intros e He. apply Hab.
  rewrite forallb_forall in F. now apply F.
Qed.

(** Calls of a kind the run does not make leave that part of the trace as
    it was. *)
Lemma continues_by_filter (allowed f : Effect -> bool) d d' :
  (forall e, allowed e = true -> f e = false) ->
  continues_by allowed d d' ->
  List.filter f (trace d') = List.filter f (trace d).
Proof.
  intros Hdis (c & H & F). rewrite H, List.filter_app.
  assert (Hc : List.filter f c = []).
  { clear H. induction c as [|e c IH]; [reflexivity|]. simpl in *.
    apply andb_prop in F as [Fe Fc]. rewrite (Hdis e Fe). now apply IH. }
  rewrite Hc. apply app_nil_r.
Qed.

Lemma update_marker_continues (element : HTMLElement) d :
  continues_by is_marker_update d (update_marker element d).
Proof.
  unfold update_marker.
  destruct (already_highlighted (marked d) element); [apply continues_by_refl|].
  exists (map classList_removed (marked d) ++ [classList_added (uid element)]).
  split.
  - unfold classList_add. simpl. rewrite remove_highlights_trace. now rewrite <- app_assoc.
  - rewrite forallb_app. simpl. rewrite andb_true_r.
    induction (marked d) as [|x l IH]; [reflexivity|exact IH].
Qed.

Lemma marker_update_is_highlight_call e :
  is_marker_update e = true -> is_highlight_call e = true.
Proof. now destruct e. Qed.

Lemma clamped_highlight_continues br p :
  continues_by is_highlight_call (Clamped.document p)
    (Clamped.document (Clamped.highlightSelected br p)).
Proof.
  unfold Clamped.highlightSelected.
  destruct (Clamped.size p =? 0); [apply continues_by_refl|].
  destruct (js_index _ _) as [element|]; [|now apply continues_by_emit].
  simpl.
  eapply continues_by_trans;
    [|eapply continues_by_weaken;
      [exact marker_update_is_highlight_call|apply update_marker_continues]].
  destruct (Clamped.index p =? 0); [now apply continues_by_emit|].
  destruct (outside_viewport br element);
    [now apply continues_by_emit|apply continues_by_refl].
Qed.

Lemma wrap_highlight_continues br p :
  continues_by is_highlight_call (Wrap.document p)
    (Wrap.document (Wrap.highlightSelected br p)).
Proof.
  unfold Wrap.highlightSelected.
  destruct (Wrap.at_number _ _) as [element|]; [|now apply continues_by_emit].
  simpl.
  eapply continues_by_trans;
    [|eapply continues_by_weaken;
      [exact marker_update_is_highlight_call|apply update_marker_continues]].
  destruct (outside_viewport br element).
  - eapply continues_by_trans; now apply continues_by_emit.
  - now apply continues_by_emit.
Qed.

Lemma highlight_call_no_prevent e : is_highlight_call e = true -> is_preventDefault e = false.
Proof. now destruct e. Qed.

Lemma highlight_call_no_navigation e : is_highlight_call e = true -> is_navigation e = false.
Proof. now destruct e. Qed.

Lemma clamped_highlight_prevents br p :
  prevents (trace (Clamped.document (Clamped.highlightSelected br p))) =
  prevents (trace (Clamped.document p)).
Proof.
  apply (continues_by_filter is_highlight_call); [exact highlight_call_no_prevent|].
  apply clamped_highlight_continues.
Qed.

Lemma wrap_highlight_prevents br p :
  prevents (trace (Wrap.document (Wrap.highlightSelected br p))) =
  prevents (trace (Wrap.document p)).
Proof.
  apply (continues_by_filter is_highlight_call); [exact highlight_call_no_prevent|].
  apply wrap_highlight_continues.
Qed.

Lemma clamped_highlight_navigations br p :
  navigations (trace (Clamped.document (Clamped.highlightSelected br p))) =
  navigations (trace (Clamped.document p)).
Proof.
  apply (continues_by_filter is_highlight_call); [exact highlight_call_no_navigation|].
  apply clamped_highlight_continues.
Qed.

Lemma wrap_highlight_navigations br p :
  navigations (trace (Wrap.document (Wrap.highlightSelected br p))) =
  navigations (trace (Wrap.document p)).
Proof.
  apply (continues_by_filter is_highlight_call); [exact highlight_call_no_navigation|].
  apply wrap_highlight_continues.
Qed.

Lemma filter_snoc {A} (f : A -> bool) l x :
  List.filter f (l ++ [x]) = List.filter f l ++ (if f x then [x] else []).
Proof. rewrite List.filter_app. simpl. now destruct (f x). Qed.

(** A key the script does not bind leaves the page as it is. *)
Lemma clamped_not_bound br ev p :
  clamped_bound ev = false -> Clamped.handleKeyDown br ev p = p.
Proof.
  unfold clamped_bound, move_key, next_key, prev_key, activate_key, g_key,
    Clamped.handleKeyDown.
  intros H. destruct (inside_input br); [reflexivity|].
  destruct (key_in ev ["j"; "ArrowDown"]); [discriminate|].
  destruct (key_in ev ["k"; "ArrowUp"]); [discriminate|].
  destruct (key_in ev [" "; "Enter"]); [discriminate|].
  destruct (key_in ev ["G"; "g"]); [|reflexivity].
  destruct (metaKey ev); [reflexivity|]. destruct (ctrlKey ev); [reflexivity|].
  discriminate.
Qed.

Lemma wrap_not_bound br ev p :
  wrap_bound ev = false -> Wrap.handleKeyDown br ev p = p.
Proof.
  unfold wrap_bound, move_key, next_key, prev_key, activate_key, Wrap.handleKeyDown.
  intros H. destruct (inside_input br); [reflexivity|].
  destruct (key_in ev ["j"; "ArrowDown"]); [discriminate|].
  destruct (key_in ev ["k"; "ArrowUp"]); [discriminate|].
  destruct (key_in ev [" "; "Enter"]); [discriminate|reflexivity].
Qed.

(** A move or jump key: [preventDefault], then calls of the highlight only. *)
Lemma clamped_move_or_jump br ev p :
  inside_input br = false -> activate_key ev = false -> clamped_bound ev = true ->
  continues_by is_highlight_call (emit preventDefault (Clamped.document p))
    (Clamped.document (Clamped.handleKeyDown br ev p)).
Proof.
  unfold clamped_bound, move_key, next_key, prev_key, activate_key, g_key,
    Clamped.handleKeyDown.
  intros Hin Ha Hb. rewrite Hin, Ha in *.
  destruct (key_in ev ["j"; "ArrowDown"]);
    [exact (clamped_highlight_continues br _)|].
  destruct (key_in ev ["k"; "ArrowUp"]);
    [exact (clamped_highlight_continues br _)|].
  destruct (key_in ev ["G"; "g"]); [|discriminate].
  destruct (metaKey ev); [discriminate|]. destruct (ctrlKey ev); [discriminate|].
  cbn [orb]. cbv zeta.
  destruct (shiftKey ev); [exact (clamped_highlight_continues br _)|].
  destruct (Date_now br <? _); [exact (clamped_highlight_continues br _)|].
  apply continues_by_refl.
Qed.

Lemma wrap_move br ev p :
  inside_input br = false -> activate_key ev = false -> wrap_bound ev = true ->
  continues_by is_highlight_call (emit preventDefault (Wrap.document p))
    (Wrap.document (Wrap.handleKeyDown br ev p)).
Proof.
  unfold wrap_bound, move_key, next_key, prev_key, activate_key, Wrap.handleKeyDown.
  intros Hin Ha Hb. rewrite Hin, Ha in *.
  destruct (key_in ev ["j"; "ArrowDown"]);
    [exact (wrap_highlight_continues br _)|].
  destruct (key_in ev ["k"; "ArrowUp"]);
    [exact (wrap_highlight_continues br _)|discriminate].
Qed.

Lemma activate_key_bound ev : activate_key ev = true -> clamped_bound ev = true /\ wrap_bound ev = true.
Proof.
  intros H. unfold clamped_bound, wrap_bound. rewrite H.
  split; now rewrite ?orb_true_r.
Qed.

End Calls.

(** X6.  [preventDefault] is called exactly for the keys the script binds,
    and once: in [content.js] for [j], [ArrowDown], [k], [ArrowUp], [Space],
    [Enter] whatever the modifiers, and for [g]/[G] unless meta or ctrl is
    held; in the earlier revision for the first six only.  With the focus in
    an [INPUT] or [TEXTAREA], or on any other key, it is not called. *)
Theorem prevent_default_iff_bound br ev :
  (forall p : Clamped.Page,
      prevents (trace (Clamped.document (Clamped.handleKeyDown br ev p))) =
      prevents (trace (Clamped.document p)) ++
      (if negb (inside_input br) && clamped_bound ev then [preventDefault] else [])) /\
  (forall p : Wrap.Page,
      prevents (trace (Wrap.document (Wrap.handleKeyDown br ev p))) =
      prevents (trace (Wrap.document p)) ++
      (if negb (inside_input br) && wrap_bound ev then [preventDefault] else [])).
Proof.
  split; intros p.
  - destruct (inside_input br) eqn:Hin.
    { rewrite clamped_inside_input by assumption. symmetry. apply app_nil_r. }
    destruct (clamped_bound ev) eqn:Hb.
    2:{ rewrite clamped_not_bound by assumption. symmetry. apply app_nil_r. }
    cbn [negb andb].
    destruct (activate_key ev) eqn:Ha.
    + rewrite clamped_activate by assumption. cbv zeta. unfold prevents.
      destruct (js_index _ _) as [element|];
        [destruct (anchor element); [destruct (metaKey ev)|]|];
        cbn [Clamped.on_document Clamped.document emit trace];
        rewrite !filter_snoc; cbn [is_preventDefault]; now rewrite app_nil_r.
    + unfold prevents.
      rewrite (continues_by_filter is_highlight_call is_preventDefault _ _
                 highlight_call_no_prevent (clamped_move_or_jump br ev p Hin Ha Hb)).
      cbn [emit trace]. now rewrite filter_snoc.
  - destruct (inside_input br) eqn:Hin.
    { rewrite wrap_inside_input by assumption. symmetry. apply app_nil_r. }
    destruct (wrap_bound ev) eqn:Hb.
    2:{ rewrite wrap_not_bound by assumption. symmetry. apply app_nil_r. }
    cbn [negb andb].
    destruct (activate_key ev) eqn:Ha.
    + rewrite wrap_activate by assumption. cbv zeta. unfold prevents.
      destruct (Wrap.at_number _ _) as [element|];
        [destruct (anchor element); [destruct (metaKey ev)|]|];
        cbn [Wrap.on_document Wrap.document emit trace];
        rewrite !filter_snoc; cbn [is_preventDefault]; now rewrite app_nil_r.
    + unfold prevents.
      rewrite (continues_by_filter is_highlight_call is_preventDefault _ _
                 highlight_call_no_prevent (wrap_move br ev p Hin Ha Hb)).
      cbn [emit trace]. now rewrite filter_snoc.
Qed.

(** X7.  The only navigation the key handler makes: an activation key
    outside text fields, on an existing selected entry with a link, adds one
    navigation to the entry's first link, in a new tab with the meta key and
    in the current tab without.  Every other key press, and an activation
    without entry or link, adds none.  Both revisions. *)
Theorem navigation_only_on_activation br ev :
  (forall p : Clamped.Page,
      navigations (trace (Clamped.document (Clamped.handleKeyDown br ev p))) =
      navigations (trace (Clamped.document p)) ++
      (if negb (inside_input br) && activate_key ev
       then navigation_of (metaKey ev) (js_index (Clamped.results p) (Clamped.index p))
       else [])) /\
  (forall p : Wrap.Page,
      navigations (trace (Wrap.document (Wrap.handleKeyDown br ev p))) =
      navigations (trace (Wrap.document p)) ++
      (if negb (inside_input br) && activate_key ev
       then navigation_of (metaKey ev) (Wrap.at_number (Wrap.results p) (Wrap.index p))
       else [])).
Proof.
  split; intros p.
  - destruct (inside_input br) eqn:Hin.
    { rewrite clamped_inside_input by assumption. symmetry. apply app_nil_r. }
    cbn [negb andb].
    destruct (activate_key ev) eqn:Ha.
    + rewrite clamped_activate by assumption. cbv zeta.
      change (Clamped.results (Clamped.on_document (emit preventDefault) p))
        with (Clamped.results p).
      change (Clamped.index (Clamped.on_document (emit preventDefault) p))
        with (Clamped.index p).
      unfold navigation_of, navigations.
      destruct (js_index _ _) as [element|];
        [destruct (anchor element); [destruct (metaKey ev)|]|];
        cbn [Clamped.on_document Clamped.document emit trace];
        rewrite !filter_snoc; cbn [is_navigation]; now rewrite !app_nil_r.
    + rewrite app_nil_r. destruct (clamped_bound ev) eqn:Hb.
      2:{ now rewrite clamped_not_bound. }
      unfold navigations.
      rewrite (continues_by_filter is_highlight_call is_navigation _ _
                 highlight_call_no_navigation (clamped_move_or_jump br ev p Hin Ha Hb)).
      cbn [emit trace]. rewrite filter_snoc. cbn [is_navigation]. apply app_nil_r.
  - destruct (inside_input br) eqn:Hin.
    { rewrite wrap_inside_input by assumption. symmetry. apply app_nil_r. }
    cbn [negb andb].
    destruct (activate_key ev) eqn:Ha.
    + rewrite wrap_activate by assumption. cbv zeta.
      change (Wrap.results (Wrap.on_document (emit preventDefault) p))
        with (Wrap.results p).
      change (Wrap.index (Wrap.on_document (emit preventDefault) p))
        with (Wrap.index p).
      unfold navigation_of, navigations.
      destruct (Wrap.at_number _ _) as [element|];
        [destruct (anchor element); [destruct (metaKey ev)|]|];
        cbn [Wrap.on_document Wrap.document emit trace];
        rewrite !filter_snoc; cbn [is_navigation]; now rewrite !app_nil_r.
    + rewrite app_nil_r. destruct (wrap_bound ev) eqn:Hb.
      2:{ now rewrite wrap_not_bound. }
      unfold navigations.
      rewrite (continues_by_filter is_highlight_call is_navigation _ _
                 highlight_call_no_navigation (wrap_move br ev p Hin Ha Hb)).
      cbn [emit trace]. rewrite filter_snoc. cbn [is_navigation]. apply app_nil_r.
Qed.

(** ** The marker follows the cursor; scrolling *)

Section Follow.

Lemma js_index_in_range {A} (l : list A) i :
  0 <= i < Z.of_nat (length l) -> exists x, js_index l i = Some x.
Proof.
  intros H. unfold js_index.
  assert (Hle : (0 <=? i) = true) by (apply Z.leb_le; lia). rewrite Hle.
  destruct (lookup_lt_is_Some_2 l (Z.to_nat i)) as [x Hx]; [lia|]. eauto.
Qed.

Lemma wrap_highlight_marked br p :
  marked (Wrap.document (Wrap.highlightSelected br p)) =
  match Wrap.at_number (Wrap.results p) (Wrap.index p) with
  | Some element => marked_after element (marked (Wrap.document p))
  | None => marked (Wrap.document p)
  end.
Proof.
  unfold Wrap.highlightSelected.
  destruct (Wrap.at_number _ _) as [element|]; [|reflexivity].
  simpl. rewrite update_marker_marked.
  now destruct (outside_viewport br element).
Qed.

(** The marked elements after a highlight run on a page whose cursor is in
    range. *)
Lemma clamped_highlight_in_range br p :
  clamped_in_range p ->
  exists element,
    js_index (Clamped.results p) (Clamped.index p) = Some element /\
    marked (Clamped.document (Clamped.highlightSelected br p)) =
      marked_after element (marked (Clamped.document p)).
Proof.
  intros H. unfold clamped_in_range, Clamped.size in H.
  destruct (js_index_in_range (Clamped.results p) (Clamped.index p) H) as [el Hel].
  exists el. split; [exact Hel|].
  rewrite clamped_highlight_marked, Hel.
  assert (Hs : (Clamped.size p =? 0) = false)
    by (unfold Clamped.size; apply Z.eqb_neq; lia).
  now rewrite Hs.
Qed.

Lemma wrap_highlight_in_range br p :
  wrap_in_range p ->
  exists element,
    Wrap.at_number (Wrap.results p) (Wrap.index p) = Some element /\
    marked (Wrap.document (Wrap.highlightSelected br p)) =
      marked_after element (marked (Wrap.document p)).
Proof.
  intros H. unfold wrap_in_range in H.
  destruct (Wrap.index p) as [i|] eqn:Hi; [|contradiction].
  destruct (js_index_in_range (Wrap.results p) i H) as [el Hel].
  exists el. rewrite wrap_highlight_marked, Hi. simpl. rewrite Hel. now split.
Qed.

Lemma clamped_move_unfold br ev p :
  inside_input br = false -> move_key ev = true ->
  exists i,
    Clamped.handleKeyDown br ev p =
    Clamped.highlightSelected br
      (Clamped.set_selectedIndex i (Clamped.on_document (emit preventDefault) p)) /\
    (clamped_in_range p -> 0 <= i < Clamped.size p).
Proof.
  intros Hin Hk. unfold Clamped.handleKeyDown. rewrite Hin.
  destruct (move_key_cases ev Hk) as [Hn|[Hn Hp]]; unfold next_key, prev_key in *.
  - rewrite Hn. eexists. split; [reflexivity|].
    unfold clamped_in_range. intros H.
    change (Clamped.index (Clamped.on_document (emit preventDefault) p))
      with (Clamped.index p).
    change (Clamped.size (Clamped.on_document (emit preventDefault) p))
      with (Clamped.size p).
    unfold Clamped.clamp. lia.
  - rewrite Hn, Hp. eexists. split; [reflexivity|].
    unfold clamped_in_range. intros H.
    change (Clamped.index (Clamped.on_document (emit preventDefault) p))
      with (Clamped.index p).
    change (Clamped.size (Clamped.on_document (emit preventDefault) p))
      with (Clamped.size p).
    unfold Clamped.clamp. lia.
Qed.

End Follow.

(** X8.  The marker follows the cursor.  After a move key (outside text
    fields) on a page whose cursor is in range, and in [content.js] also
    after [last], the elements of the document that carry the marker are at
    most one, the entry of the result list at the new [selectedIndex], and
    exactly that entry when it is in the document.  Both revisions. *)
Theorem marker_follows_cursor br ev :
  inside_input br = false ->
  (forall p : Clamped.Page,
      clamped_in_range p -> move_key ev = true \/ last_key ev = true ->
      exists element,
        js_index (Clamped.results p)
          (Clamped.index (Clamped.handleKeyDown br ev p)) = Some element /\
        (forall x, In x (marked (Clamped.document (Clamped.handleKeyDown br ev p))) ->
                   x = uid element) /\
        (isConnected element = true ->
         marked (Clamped.document (Clamped.handleKeyDown br ev p)) = [uid element])) /\
  (forall p : Wrap.Page,
      wrap_in_range p -> move_key ev = true ->
      exists element,
        Wrap.at_number (Wrap.results p)
          (Wrap.index (Wrap.handleKeyDown br ev p)) = Some element /\
        (forall x, In x (marked (Wrap.document (Wrap.handleKeyDown br ev p))) ->
                   x = uid element) /\
        (isConnected element = true ->
         marked (Wrap.document (Wrap.handleKeyDown br ev p)) = [uid element])).
Proof.
  intros Hin. split.
  - intros p Hr [Hk|Hk].
    + destruct (clamped_move_unfold br ev p Hin Hk) as (i & -> & Hi).
      rewrite clamped_highlight_index.
      destruct (clamped_highlight_in_range br
                  (Clamped.set_selectedIndex i
                     (Clamped.on_document (emit preventDefault) p)) (Hi Hr))
        as (el & H1 & H2).
      exists el. split; [exact H1|]. rewrite H2. split.
      * intros x. apply marked_after_only.
      * apply marked_after_connected.
    + unfold last_key in Hk. apply andb_prop in Hk as [Hg Hs].
      rewrite clamped_g_press by assumption. cbv zeta. rewrite Hs.
      rewrite clamped_highlight_index.
      match goal with
      | |- context [Clamped.highlightSelected br ?q] =>
          assert (Hq : clamped_in_range q)
      end.
      { unfold clamped_in_range in *.
        change (Clamped.size (Clamped.set_selectedIndex _ _)) with (Clamped.size p).
        change (Clamped.index (Clamped.set_selectedIndex ?i _)) with i.
        change (Clamped.size (Clamped.on_document (emit preventDefault) p))
          with (Clamped.size p).
        lia. }
      destruct (clamped_highlight_in_range br _ Hq) as (el & H1 & H2).
      exists el. split; [exact H1|]. rewrite H2. split.
      * intros x. apply marked_after_only.
      * apply marked_after_connected.
  - intros p Hr Hk.
    pose proof (wrap_move_in_range br ev p Hk Hr) as Hr'.
    pose proof (wrap_key_results br ev p) as Hres.
    unfold Wrap.handleKeyDown in *. rewrite Hin in *.
    destruct (move_key_cases ev Hk) as [Hn|[Hn Hp]]; unfold next_key, prev_key in *.
    + rewrite Hn in *.
      match goal with
      | |- context [Wrap.highlightSelected br ?q] =>
          assert (Hq : wrap_in_range q)
      end.
      { unfold wrap_in_range in *. rewrite wrap_highlight_index in Hr'.
        rewrite wrap_highlight_results in Hr'. exact Hr'. }
      destruct (wrap_highlight_in_range br _ Hq) as (el & H1 & H2).
      exists el. rewrite wrap_highlight_index. split; [exact H1|]. rewrite H2. split.
      * intros x. apply marked_after_only.
      * apply marked_after_connected.
    + rewrite Hn, Hp in *.
      match goal with
      | |- context [Wrap.highlightSelected br ?q] =>
          assert (Hq : wrap_in_range q)
      end.
      { unfold wrap_in_range in *. rewrite wrap_highlight_index in Hr'.
        rewrite wrap_highlight_results in Hr'. exact Hr'. }
      destruct (wrap_highlight_in_range br _ Hq) as (el & H1 & H2).
      exists el. rewrite wrap_highlight_index. split; [exact H1|]. rewrite H2. split.
      * intros x. apply marked_after_only.
      * apply marked_after_connected.
Qed.

Lemma marker_follows_cursor_witness :
  (exists element,
      js_index five_results
        (Clamped.index (Clamped.handleKeyDown (browser_at 5000) (shift_press "G")
                          (clamped_page five_results 1
                             {| marked := [2; 9]%nat; marked_outside := []; trace := [] |})))
        = Some element /\
      (forall x,
          In x (marked (Clamped.document
                          (Clamped.handleKeyDown (browser_at 5000) (shift_press "G")
                             (clamped_page five_results 1
                                {| marked := [2; 9]%nat; marked_outside := []; trace := [] |})))) ->
          x = uid element) /\
      (isConnected element = true ->
       marked (Clamped.document
                 (Clamped.handleKeyDown (browser_at 5000) (shift_press "G")
                    (clamped_page five_results 1
                       {| marked := [2; 9]%nat; marked_outside := []; trace := [] |})))
         = [uid element])) /\
  (exists element,
      Wrap.at_number five_results
        (Wrap.index (Wrap.handleKeyDown (browser_at 5000) (press "k")
                       (wrap_page five_results (Wrap.Num 0) blank)))
        = Some element /\
      (forall x,
          In x (marked (Wrap.document
                          (Wrap.handleKeyDown (browser_at 5000) (press "k")
                             (wrap_page five_results (Wrap.Num 0) blank)))) ->
          x = uid element) /\
      (isConnected element = true ->
       marked (Wrap.document
                 (Wrap.handleKeyDown (browser_at 5000) (press "k")
                    (wrap_page five_results (Wrap.Num 0) blank)))
         = [uid element])).
Proof.
  destruct (marker_follows_cursor (browser_at 5000) (shift_press "G") eq_refl) as [Hc _].
  destruct (marker_follows_cursor (browser_at 5000) (press "k") eq_refl) as [_ Hw].
  split.
  - apply (Hc (clamped_page five_results 1
                 {| marked := [2; 9]%nat; marked_outside := []; trace := [] |})).
    + unfold clamped_in_range, Clamped.index, Clamped.size. simpl. lia.
    + right. reflexivity.
  - apply (Hw (wrap_page five_results (Wrap.Num 0) blank)).
    + unfold wrap_in_range, Wrap.index. simpl. lia.
    + reflexivity.
Defined.

(** X9.  One highlight run scrolls at most once.  In [content.js] the first
    entry always scrolls the window to the top, whether it is in view or
    not; any other entry is scrolled into view only when its rectangle
    leaves the viewport ([top < 0] or [bottom > innerHeight]).  The earlier
    revision has no special case for the first entry.  A run that finds no
    entry does not scroll. *)
Theorem highlight_scroll_policy br :
  (forall p : Clamped.Page,
      scrolls (trace (Clamped.document (Clamped.highlightSelected br p))) =
      scrolls (trace (Clamped.document p)) ++ clamped_scroll br p) /\
  (forall p : Wrap.Page,
      scrolls (trace (Wrap.document (Wrap.highlightSelected br p))) =
      scrolls (trace (Wrap.document p)) ++ wrap_scroll br p).
Proof.
  assert (Hm : forall e, is_marker_update e = true -> is_scroll e = false)
    by (intros e; now destruct e).
  split; intros p.
  - unfold Clamped.highlightSelected, clamped_scroll.
    destruct (Clamped.size p =? 0) eqn:Hs.
    { assert (He : Clamped.results p = []).
      { apply Z.eqb_eq in Hs. unfold Clamped.size in Hs.
        destruct (Clamped.results p); [reflexivity|discriminate]. }
      rewrite He. unfold js_index. destruct (0 <=? _); symmetry; apply app_nil_r. }
    destruct (js_index _ _) as [element|].
    + unfold scrolls. cbn [Clamped.on_document Clamped.document].
      rewrite (continues_by_filter is_marker_update is_scroll _ _ Hm
                 (update_marker_continues element _)).
      destruct (Clamped.index p =? 0).
      * cbn [Clamped.on_document Clamped.document emit trace]. now rewrite filter_snoc.
      * destruct (outside_viewport br element).
        -- cbn [Clamped.on_document Clamped.document emit trace]. now rewrite filter_snoc.
        -- now rewrite app_nil_r.
    + unfold scrolls. cbn [Clamped.on_document Clamped.document emit trace].
      rewrite filter_snoc. reflexivity.
  - unfold Wrap.highlightSelected, wrap_scroll.
    destruct (Wrap.at_number _ _) as [element|].
    + unfold scrolls. cbn [Wrap.on_document Wrap.document].
      rewrite (continues_by_filter is_marker_update is_scroll _ _ Hm
                 (update_marker_continues element _)).
      destruct (outside_viewport br element).
      * cbn [Wrap.on_document Wrap.document emit trace]. rewrite !filter_snoc.
        cbn [is_scroll]. now rewrite app_nil_r.
      * cbn [Wrap.on_document Wrap.document emit trace]. rewrite !filter_snoc.
        reflexivity.
    + unfold scrolls. cbn [Wrap.on_document Wrap.document emit trace].
      rewrite filter_snoc. reflexivity.
Qed.

(** ** More on the extractor *)

Section Entries.

Lemma chain_root_top e :
  In (chain_root e) (ancestors_or_self e) /\ parentElement (chain_root e) = None.
Proof.
  induction e as [e IH] using parent_chain_ind.
  destruct e as [u t l a c [q|]]; unfold chain_root; simpl.
  - destruct (IH q eq_refl) as [Hin Htop]. unfold chain_root in *.
    destruct (ancestors_or_self_cons q) as [r Hr]. rewrite Hr in *.
    rewrite (last_cons_default r q _ q). split; [right; exact Hin|exact Htop].
  - split; [now left|reflexivity].
Qed.

(** Where the climb ends: on the chain of the heading, at an element that
    carries [lang] or has no parent. *)
Lemma climb_end heading :
  In (fst (climb heading)) (ancestors_or_self heading) /\
  (has_lang (fst (climb heading)) = true \/ parentElement (fst (climb heading)) = None).
Proof.
  rewrite climb_spec.
  destruct (List.find has_lang (ancestors_or_self heading)) as [block|] eqn:E; simpl.
  - apply List.find_some in E as [Hin Hl]. auto.
  - destruct (chain_root_top heading) as [Hin Htop]. auto.
Qed.

Lemma entry_of_some heading block :
  entry_of heading = Some block ->
  is_div block = true /\ In block (ancestors_or_self heading) /\
  (has_lang block = true \/ parentElement block = None).
Proof.
  unfold entry_of. intros H.
  destruct (is_div (fst (climb heading))) eqn:E; [|discriminate].
  injection H as <-. split; [exact E|apply climb_end].
Qed.

Lemma omap_length_le {A B} (f : A -> option B) l : (length (omap f l) <= length l)%nat.
Proof.
  induction l as [|x l IH]; cbn; [lia|]. destruct (f x); simpl; lia.
Qed.

Lemma omap_app' {A B} (f : A -> option B) l1 l2 :
  omap f (l1 ++ l2) = omap f l1 ++ omap f l2.
Proof.
  induction l1 as [|x l1 IH]; cbn; [reflexivity|].
  destruct (f x); simpl; now rewrite IH.
Qed.

(** A heading without [lang] directly inside a [DIV] that carries [lang]. *)
Lemma entry_of_child heading block :
  lang heading = None -> parentElement heading = Some block ->
  has_lang block = true -> is_div block = true ->
  entry_of heading = Some block.
Proof.
  intros Hl Hp Hb Hd. unfold entry_of.
  destruct heading as [u t l a c pe]. simpl in Hl, Hp. subst l pe. simpl.
  destruct block as [u' t' l' a' c' pe']. unfold has_lang in Hb. simpl in *.
  destruct l'; [|discriminate]. simpl. now rewrite Hd.
Qed.

End Entries.

(** X10.  Every entry the extractor returns is a [DIV] that lies on the
    parent chain of one of the headings (the heading itself included) and
    either carries a [lang] attribute or has no parent; and there are no
    more entries than headings. *)
Theorem extract_entries_are_blocks (searchElement : HTMLDivElement) :
  Forall
    (fun entry =>
       is_div entry = true /\
       (has_lang entry = true \/ parentElement entry = None) /\
       exists heading,
         In heading (querySelectorAll_h3 searchElement) /\
         In entry (ancestors_or_self heading))
    (fst (extractSearchResults searchElement)) /\
  (length (fst (extractSearchResults searchElement)) <=
   length (querySelectorAll_h3 searchElement))%nat.
Proof.
  rewrite extract_spec. simpl. split; [|apply omap_length_le].
  apply List.Forall_forall. intros entry Hin.
  apply list_elem_of_In in Hin. apply list_elem_of_omap in Hin as (h & Hh & He).
  apply list_elem_of_In in Hh.
  destruct (entry_of_some h entry He) as (Hd & Hc & Hl). eauto.
Qed.

(** X11.  The extractor works heading by heading and removes no duplicate:
    the entries (and reports) of a list of headings followed by another are
    those of the first followed by those of the second, and [n] headings
    that sit, without [lang] of their own, directly inside one [DIV] with
    [lang] give that block [n] times. *)
Theorem extract_keeps_duplicates :
  (forall self1 self2 self3 hs1 hs2,
      extractSearchResults (mkContainer self1 (hs1 ++ hs2)) =
      (fst (extractSearchResults (mkContainer self2 hs1)) ++
       fst (extractSearchResults (mkContainer self3 hs2)),
       snd (extractSearchResults (mkContainer self2 hs1)) ++
       snd (extractSearchResults (mkContainer self3 hs2)))) /\
  (forall self0 hs block,
      has_lang block = true -> is_div block = true ->
      Forall (fun h => lang h = None /\ parentElement h = Some block) hs ->
      fst (extractSearchResults (mkContainer self0 hs)) = repeat block (length hs)).
Proof.
  split.
  - intros s1 s2 s3 hs1 hs2. rewrite !extract_spec. simpl.
    now rewrite omap_app', map_app, concat_app.
  - intros s0 hs block Hl Hd Hhs. rewrite extract_spec. simpl.
    induction Hhs as [|h hs [Hh1 Hh2] _ IH]; [reflexivity|].
    cbn. rewrite (entry_of_child h block Hh1 Hh2 Hl Hd). simpl. now f_equal.
Qed.

Lemma extract_keeps_duplicates_witness :
  fst (extractSearchResults
         (mkContainer html_root
            [heading_of 201 (result_block 1 "https://a.example/");
             heading_of 202 (result_block 1 "https://a.example/");
             heading_of 203 (result_block 1 "https://a.example/")])) =
  repeat (result_block 1 "https://a.example/") 3.
Proof.
  apply (proj2 extract_keeps_duplicates html_root
           [heading_of 201 (result_block 1 "https://a.example/");
            heading_of 202 (result_block 1 "https://a.example/");
            heading_of 203 (result_block 1 "https://a.example/")]
           (result_block 1 "https://a.example/")).
  - reflexivity.
  - reflexivity.
  - repeat constructor.
Defined.

(** X12.  The extractor reports "Parent element is null" once for each
    heading whose chain, the heading included, carries no [lang] attribute,
    in heading order, and reports nothing else; whether the heading then
    yields an entry plays no part. *)
Theorem extract_reports_orphans (searchElement : HTMLDivElement) :
  snd (extractSearchResults searchElement) =
  map (fun _ => console_error "Parent element is null" [])
    (List.filter (fun h => negb (existsb has_lang (ancestors_or_self h)))
       (querySelectorAll_h3 searchElement)).
Proof.
  rewrite extract_spec. simpl.
  induction (querySelectorAll_h3 searchElement) as [|h hs IH]; [reflexivity|].
  simpl. rewrite IH, climb_spec.
  destruct (List.find has_lang (ancestors_or_self h)) as [b|] eqn:E.
  - assert (He : existsb has_lang (ancestors_or_self h) = true).
    { destruct (existsb has_lang (ancestors_or_self h)) eqn:E'; [reflexivity|].
      apply find_none_existsb in E'. congruence. }
    now rewrite He.
  - apply find_none_existsb in E. now rewrite E.
Qed.

(** ** The cursor under every key and under refreshes *)

Section Range.

Lemma clamped_key_in_range br ev p :
  clamped_in_range p -> clamped_in_range (Clamped.handleKeyDown br ev p).
Proof.
  intros Hr.
  destruct (inside_input br) eqn:Hin; [now rewrite clamped_inside_input|].
  destruct (move_key ev) eqn:Hm; [now apply clamped_move_in_range|].
  destruct (activate_key ev) eqn:Ha.
  { rewrite clamped_activate by assumption. cbv zeta.
    destruct (js_index _ _) as [element|]; [|exact Hr].
    destruct (anchor element); [|exact Hr]. destruct (metaKey ev); exact Hr. }
  destruct (g_key ev) eqn:Hg.
  2:{ rewrite clamped_not_bound; [exact Hr|].
      unfold clamped_bound. now rewrite Hm, Ha, Hg. }
  rewrite clamped_g_press by assumption. cbv zeta.
  unfold clamped_in_range in *.
  destruct (shiftKey ev); [|destruct (Date_now br <? _)].
  - unfold Clamped.size. rewrite clamped_highlight_index, clamped_highlight_results.
    change (Clamped.index (Clamped.set_selectedIndex ?i _)) with i.
    change (Clamped.results (Clamped.set_selectedIndex _ (Clamped.on_document _ p)))
      with (Clamped.results p).
    change (Clamped.results (Clamped.on_document (emit preventDefault) p))
      with (Clamped.results p).
    unfold Clamped.size in *. lia.
  - unfold Clamped.size. rewrite clamped_highlight_index, clamped_highlight_results.
    change (Clamped.index (Clamped.set_selectedIndex ?i _)) with i.
    change (Clamped.results (Clamped.set_selectedIndex _ (Clamped.on_document _ p)))
      with (Clamped.results p).
    unfold Clamped.size in *. lia.
  - exact Hr.
Qed.

Lemma wrap_key_in_range br ev p :
  wrap_in_range p -> wrap_in_range (Wrap.handleKeyDown br ev p).
Proof.
  intros Hr.
  destruct (inside_input br) eqn:Hin; [now rewrite wrap_inside_input|].
  destruct (move_key ev) eqn:Hm; [now apply wrap_move_in_range|].
  destruct (activate_key ev) eqn:Ha.
  { rewrite wrap_activate by assumption. cbv zeta.
    destruct (Wrap.at_number _ _) as [element|]; [|exact Hr].
    destruct (anchor element); [|exact Hr]. destruct (metaKey ev); exact Hr. }
  rewrite wrap_not_bound; [exact Hr|]. unfold wrap_bound. now rewrite Hm, Ha.
Qed.

Lemma clamped_refresh_state br searchElement p :
  Clamped.index (Clamped.handleSearchResultsChanged br searchElement p) = Clamped.index p /\
  Clamped.results (Clamped.handleSearchResultsChanged br searchElement p) =
    fst (extractSearchResults searchElement).
Proof.
  rewrite clamped_refresh_unfold. destruct (Clamped.shouldHighlight p).
  - rewrite clamped_highlight_index, clamped_highlight_results. now split.
  - now split.
Qed.

Lemma wrap_refresh_state br searchElement p :
  Wrap.index (Wrap.handleSearchResultsChanged br searchElement p) = Wrap.index p /\
  Wrap.results (Wrap.handleSearchResultsChanged br searchElement p) =
    fst (extractSearchResults searchElement).
Proof.
  rewrite wrap_refresh_unfold.
  rewrite wrap_highlight_index, wrap_highlight_results. now split.
Qed.

End Range.

(** X13.  Once the cursor is inside the list it stays inside under every
    key press whatsoever (moves, activation, [g]/[G], unbound keys, any
    modifiers, any focus), in both revisions, and under every refresh whose
    new list is longer than the cursor. *)
Theorem cursor_in_range_is_kept :
  (forall (ks : list KeyPress) (p : Clamped.Page),
      clamped_in_range p -> clamped_in_range (clamped_presses ks p)) /\
  (forall (ks : list KeyPress) (p : Wrap.Page),
      wrap_in_range p -> wrap_in_range (wrap_presses ks p)) /\
  (forall br searchElement (p : Clamped.Page),
      0 <= Clamped.index p < Z.of_nat (length (fst (extractSearchResults searchElement))) ->
      clamped_in_range (Clamped.handleSearchResultsChanged br searchElement p)) /\
  (forall br searchElement (p : Wrap.Page) i,
      Wrap.index p = Wrap.Num i ->
      0 <= i < Z.of_nat (length (fst (extractSearchResults searchElement))) ->
      wrap_in_range (Wrap.handleSearchResultsChanged br searchElement p)).
Proof.
  split; [|split; [|split]].
  - intros ks. unfold clamped_presses.
    induction ks as [|k ks IH]; intros p Hr; simpl; [exact Hr|].
    apply IH. now apply clamped_key_in_range.
  - intros ks. unfold wrap_presses.
    induction ks as [|k ks IH]; intros p Hr; simpl; [exact Hr|].
    apply IH. now apply wrap_key_in_range.
  - intros br c p H. unfold clamped_in_range, Clamped.size.
    destruct (clamped_refresh_state br c p) as [-> ->]. exact H.
  - intros br c p i Hi H. unfold wrap_in_range.
    destruct (wrap_refresh_state br c p) as [-> ->]. rewrite Hi. exact H.
Qed.

Lemma cursor_in_range_is_kept_witness :
  clamped_in_range
    (clamped_presses
       [(browser_at 5000, press "g"); (browser_at 5500, press "g");
        (browser_at 6000, shift_press "G"); (browser_at 6100, press "Enter");
        (browser_at 6200, press "x"); (browser_at 6300, press "j")]
       (clamped_page five_results 2 blank)) /\
  clamped_in_range
    (Clamped.handleSearchResultsChanged (browser_at 5000) (container_of five_results)
       (clamped_page (firstn 3 five_results) 2 blank)).
Proof.
  destruct cursor_in_range_is_kept as (Hk & _ & Hr & _).
  split.
  - apply Hk. unfold clamped_in_range, Clamped.index, Clamped.size. simpl. lia.
  - apply Hr. unfold Clamped.index. simpl. lia.
Defined.

(** ** Round trips and repeated moves *)

Section Cycles.

Lemma wrap_index_next br p i :
  inside_input br = false -> Wrap.index p = Wrap.Num i ->
  0 <= i < Z.of_nat (length (Wrap.results p)) ->
  Wrap.index (Wrap.handleKeyDown br (press "j") p) =
    Wrap.Num ((i + 1) mod Z.of_nat (length (Wrap.results p))).
Proof.
  intros Hin Hi Hr. rewrite wrap_next by (assumption || reflexivity).
  rewrite Hi. unfold Wrap.size. simpl.
  assert (Hn0 : (Z.of_nat (length (Wrap.results p)) =? 0) = false)
    by (apply Z.eqb_neq; lia).
  rewrite Hn0. f_equal. apply Z.rem_mod_nonneg; lia.
Qed.

Lemma wrap_index_prev br p i :
  inside_input br = false -> Wrap.index p = Wrap.Num i ->
  0 <= i < Z.of_nat (length (Wrap.results p)) ->
  Wrap.index (Wrap.handleKeyDown br (press "k") p) =
    Wrap.Num ((i - 1) mod Z.of_nat (length (Wrap.results p))).
Proof.
  intros Hin Hi Hr. rewrite wrap_prev by (assumption || reflexivity).
  rewrite Hi. unfold Wrap.size. simpl.
  assert (Hn0 : (Z.of_nat (length (Wrap.results p)) =? 0) = false)
    by (apply Z.eqb_neq; lia).
  rewrite Hn0. f_equal. rewrite Z.rem_mod_nonneg by lia.
  replace (i - 1 + Z.of_nat (length (Wrap.results p)))
    with (i - 1 + 1 * Z.of_nat (length (Wrap.results p))) by lia.
  apply Z_mod_plus_full.
Qed.

Lemma wrap_nexts_results br k p : Wrap.results (wrap_nexts br k p) = Wrap.results p.
Proof.
  unfold wrap_nexts. induction k as [|k IH]; simpl; [reflexivity|].
  now rewrite wrap_key_results.
Qed.

Lemma clamped_nexts_results br k p :
  Clamped.results (clamped_nexts br k p) = Clamped.results p.
Proof.
  unfold clamped_nexts. induction k as [|k IH]; simpl; [reflexivity|].
  now rewrite clamped_key_results.
Qed.

Lemma wrap_nexts_index br k p i :
  inside_input br = false -> Wrap.index p = Wrap.Num i ->
  0 <= i < Z.of_nat (length (Wrap.results p)) ->
  Wrap.index (wrap_nexts br k p) =
    Wrap.Num ((i + Z.of_nat k) mod Z.of_nat (length (Wrap.results p))).
Proof.
  intros Hin Hi Hr. induction k as [|k IH].
  - simpl. rewrite Z.add_0_r, Z.mod_small by lia. exact Hi.
  - change (wrap_nexts br (S k) p)
      with (Wrap.handleKeyDown br (press "j") (wrap_nexts br k p)).
    set (n := Z.of_nat (length (Wrap.results p))) in *.
    assert (Hb : 0 <= (i + Z.of_nat k) mod n < n) by (apply Z.mod_pos_bound; lia).
    rewrite (wrap_index_next br _ ((i + Z.of_nat k) mod n) Hin IH);
      rewrite wrap_nexts_results; fold n; [|exact Hb].
    f_equal. rewrite Zplus_mod_idemp_l. f_equal. lia.
Qed.

Lemma clamped_nexts_index br k p :
  inside_input br = false -> clamped_in_range p ->
  Clamped.index (clamped_nexts br k p) =
    Z.min (Clamped.index p + Z.of_nat k) (Clamped.size p - 1).
Proof.
  intros Hin Hr. unfold clamped_in_range in Hr. induction k as [|k IH].
  - simpl. lia.
  - change (clamped_nexts br (S k) p)
      with (Clamped.handleKeyDown br (press "j") (clamped_nexts br k p)).
    rewrite clamped_next by (assumption || reflexivity).
    unfold Clamped.size in *. rewrite clamped_nexts_results, IH.
    unfold Clamped.clamp. lia.
Qed.

End Cycles.

(** X14.  Repeated [next].  On a page with the cursor in range, [k] presses
    of [j] leave the cursor at [(i + k) mod length] in the earlier revision,
    so [length] presses bring it back to where it was, and at
    [min (i + k) (length - 1)] in [content.js], so [length - 1] presses reach
    the last entry from anywhere and further presses stay there. *)
Theorem repeated_next br (k : nat) :
  inside_input br = false ->
  (forall (p : Wrap.Page) i,
      Wrap.index p = Wrap.Num i -> 0 <= i < Z.of_nat (length (Wrap.results p)) ->
      Wrap.index (wrap_nexts br k p) =
        Wrap.Num ((i + Z.of_nat k) mod Z.of_nat (length (Wrap.results p))) /\
      Wrap.index (wrap_nexts br (length (Wrap.results p)) p) = Wrap.Num i) /\
  (forall p : Clamped.Page,
      clamped_in_range p ->
      Clamped.index (clamped_nexts br k p) =
        Z.min (Clamped.index p + Z.of_nat k) (Clamped.size p - 1) /\
      (Clamped.size p - 1 <= Z.of_nat k ->
       Clamped.index (clamped_nexts br k p) = Clamped.size p - 1)).
Proof.
  intros Hin. split.
  - intros p i Hi Hr. split; [now apply wrap_nexts_index|].
    rewrite (wrap_nexts_index br _ p i Hin Hi Hr).
    f_equal. rewrite <- (Z.mul_1_l (Z.of_nat (length (Wrap.results p)))) at 1.
    rewrite Z_mod_plus_full. apply Z.mod_small. exact Hr.
  - intros p Hr. rewrite (clamped_nexts_index br k p Hin Hr).
    split; [reflexivity|]. unfold clamped_in_range in Hr. lia.
Qed.

Lemma repeated_next_witness :
  Wrap.index (wrap_nexts (browser_at 5000) 7 (wrap_page five_results (Wrap.Num 2) blank)) =
    Wrap.Num ((2 + 7) mod 5) /\
  Wrap.index (wrap_nexts (browser_at 5000) 5 (wrap_page five_results (Wrap.Num 2) blank)) =
    Wrap.Num 2 /\
  Clamped.index (clamped_nexts (browser_at 5000) 7 (clamped_page five_results 2 blank)) = 4.
Proof.
  destruct (repeated_next (browser_at 5000) 7 eq_refl) as [Hw Hc].
  destruct (Hw (wrap_page five_results (Wrap.Num 2) blank) 2 eq_refl) as [H1 H2].
  { simpl. lia. }
  split; [exact H1|]. split; [exact H2|].
  apply (Hc (clamped_page five_results 2 blank)).
  - unfold clamped_in_range, Clamped.index, Clamped.size. simpl. lia.
  - unfold Clamped.size. simpl. lia.
Defined.

(** X15.  [next] and [prev] undo each other in the earlier revision
    wherever the cursor is in range; in [content.js] they do so except at
    the ends: [prev] after [next] returns to [i] unless [i] is the last
    entry (of a list of at least two, where it ends one before the last),
    and [next] after [prev] returns to [i] unless [i] is the first. *)
Theorem next_prev_round_trip br :
  inside_input br = false ->
  (forall (p : Wrap.Page) i,
      Wrap.index p = Wrap.Num i -> 0 <= i < Z.of_nat (length (Wrap.results p)) ->
      Wrap.index (Wrap.handleKeyDown br (press "k")
                    (Wrap.handleKeyDown br (press "j") p)) = Wrap.Num i /\
      Wrap.index (Wrap.handleKeyDown br (press "j")
                    (Wrap.handleKeyDown br (press "k") p)) = Wrap.Num i) /\
  (forall p : Clamped.Page,
      clamped_in_range p ->
      Clamped.index (Clamped.handleKeyDown br (press "k")
                       (Clamped.handleKeyDown br (press "j") p)) =
        (if Clamped.index p =? Clamped.size p - 1
         then Z.max (Clamped.index p - 1) 0 else Clamped.index p) /\
      Clamped.index (Clamped.handleKeyDown br (press "j")
                       (Clamped.handleKeyDown br (press "k") p)) =
        (if Clamped.index p =? 0
         then Z.min 1 (Clamped.size p - 1) else Clamped.index p)).
Proof.
  intros Hin. split.
  - intros p i Hi Hr.
    set (n := Z.of_nat (length (Wrap.results p))) in *.
    assert (Hn : 0 < n) by lia.
    split.
    + rewrite (wrap_index_prev br _ ((i + 1) mod n) Hin);
        rewrite ?wrap_key_results; fold n.
      * f_equal. rewrite Zminus_mod_idemp_l.
        replace (i + 1 - 1) with i by lia. now apply Z.mod_small.
      * now apply wrap_index_next.
      * apply Z.mod_pos_bound. lia.
    + rewrite (wrap_index_next br _ ((i - 1) mod n) Hin);
        rewrite ?wrap_key_results; fold n.
      * f_equal. rewrite Zplus_mod_idemp_l.
        replace (i - 1 + 1) with i by lia. now apply Z.mod_small.
      * now apply wrap_index_prev.
      * apply Z.mod_pos_bound. lia.
  - intros p Hr. unfold clamped_in_range in Hr. split.
    + rewrite clamped_prev by (assumption || reflexivity).
      unfold Clamped.size. rewrite clamped_key_results. fold (Clamped.size p).
      rewrite clamped_next by (assumption || reflexivity).
      unfold Clamped.clamp.
      destruct (Z.eqb_spec (Clamped.index p) (Clamped.size p - 1)); lia.
    + rewrite clamped_next by (assumption || reflexivity).
      unfold Clamped.size. rewrite clamped_key_results. fold (Clamped.size p).
      rewrite clamped_prev by (assumption || reflexivity).
      unfold Clamped.clamp.
      destruct (Z.eqb_spec (Clamped.index p) 0); lia.
Qed.

Lemma next_prev_round_trip_witness :
  Wrap.index (Wrap.handleKeyDown (browser_at 5000) (press "k")
                (Wrap.handleKeyDown (browser_at 5000) (press "j")
                   (wrap_page five_results (Wrap.Num 4) blank))) = Wrap.Num 4 /\
  Clamped.index (Clamped.handleKeyDown (browser_at 5000) (press "k")
                   (Clamped.handleKeyDown (browser_at 5000) (press "j")
                      (clamped_page five_results 4 blank))) = 3.
Proof.
  destruct (next_prev_round_trip (browser_at 5000) eq_refl) as [Hw Hc].
  split.
  - apply (Hw (wrap_page five_results (Wrap.Num 4) blank) 4); [reflexivity|].
    simpl. lia.
  - apply (proj1 (Hc (clamped_page five_results 4 blank)
                    ltac:(unfold clamped_in_range, Clamped.index, Clamped.size;
                          simpl; lia))).
Defined.

(** ** The lost cursor of the earlier revision *)

Section Lost.

Lemma wrap_highlight_lost br p :
  Wrap.at_number (Wrap.results p) (Wrap.index p) = None ->
  Wrap.highlightSelected br p = Wrap.on_document (emit (undefined_report [])) p.
Proof. intros H. unfold Wrap.highlightSelected. now rewrite H. Qed.

Lemma js_rem_nan_l n : Wrap.js_rem Wrap.NaN n = Wrap.NaN.
Proof. reflexivity. Qed.

Lemma js_rem_zero a : Wrap.js_rem a (Wrap.Num 0) = Wrap.NaN.
Proof. now destruct a. Qed.

(** Any key on a page whose selected entry is missing leaves the document
    without scroll, marker update or navigation. *)
Lemma wrap_key_lost br ev p :
  cursor_lost p ->
  cursor_lost (Wrap.handleKeyDown br ev p) /\
  inert (Wrap.document p) (Wrap.document (Wrap.handleKeyDown br ev p)).
Proof.
  unfold cursor_lost. intros Hl.
  destruct (inside_input br) eqn:Hin.
  { rewrite wrap_inside_input by assumption. split; [exact Hl|apply inert_refl]. }
  destruct (activate_key ev) eqn:Ha.
  { rewrite wrap_activate by assumption. cbv zeta.
    change (Wrap.index (Wrap.on_document (emit preventDefault) p)) with (Wrap.index p).
    rewrite Hl. simpl. split; [exact Hl|].
    repeat (apply inert_emit; [|reflexivity|reflexivity]). apply inert_refl. }
  destruct (wrap_bound ev) eqn:Hb.
  2:{ rewrite wrap_not_bound by assumption. split; [exact Hl|apply inert_refl]. }
  unfold wrap_bound in Hb. rewrite Ha, orb_false_r in Hb.
  destruct (move_key_cases ev Hb) as [Hn|[Hn Hp]].
  - assert (Hi : Wrap.index (Wrap.handleKeyDown br ev p) = Wrap.NaN).
    { rewrite wrap_next by assumption. now rewrite Hl. }
    split; [exact Hi|].
    unfold Wrap.handleKeyDown, next_key in *. rewrite Hin, Hn.
    rewrite wrap_highlight_lost.
    + simpl. repeat (apply inert_emit; [|reflexivity|reflexivity]). apply inert_refl.
    + change (Wrap.index (Wrap.set_selectedIndex ?i _)) with i.
      change (Wrap.index (Wrap.on_document (emit preventDefault) p)) with (Wrap.index p).
      now rewrite Hl.
  - assert (Hi : Wrap.index (Wrap.handleKeyDown br ev p) = Wrap.NaN).
    { rewrite wrap_prev by assumption. now rewrite Hl. }
    split; [exact Hi|].
    unfold Wrap.handleKeyDown, next_key, prev_key in *. rewrite Hin, Hn, Hp.
    rewrite wrap_highlight_lost.
    + simpl. repeat (apply inert_emit; [|reflexivity|reflexivity]). apply inert_refl.
    + change (Wrap.index (Wrap.set_selectedIndex ?i _)) with i.
      change (Wrap.index (Wrap.on_document (emit preventDefault) p)) with (Wrap.index p).
      now rewrite Hl.
Qed.

Lemma wrap_refresh_lost br searchElement p :
  cursor_lost p ->
  cursor_lost (Wrap.handleSearchResultsChanged br searchElement p) /\
  inert (Wrap.document p)
    (Wrap.document (Wrap.handleSearchResultsChanged br searchElement p)).
Proof.
  unfold cursor_lost. intros Hl.
  destruct (wrap_refresh_state br searchElement p) as [Hi _].
  split; [now rewrite Hi|].
  rewrite wrap_refresh_unfold, wrap_highlight_lost.
  - simpl. apply inert_emit; [apply wrap_refreshed_inert|reflexivity|reflexivity].
  - change (Wrap.index (wrap_refreshed searchElement p)) with (Wrap.index p).
    now rewrite Hl.
Qed.

End Lost.

(** X16.  In the earlier revision a move key pressed (outside text fields)
    while the result list is empty takes a remainder by zero and leaves
    [selectedIndex = NaN].  From then on the cursor is lost for good: every
    key press and every refresh leaves it [NaN], and none of them scrolls,
    marks, unmarks or navigates any more, whatever results arrive. *)
Theorem lost_cursor_stays_lost :
  (forall br ev (p : Wrap.Page),
      inside_input br = false -> move_key ev = true -> Wrap.results p = [] ->
      cursor_lost (Wrap.handleKeyDown br ev p)) /\
  (forall br ev (p : Wrap.Page),
      cursor_lost p ->
      cursor_lost (Wrap.handleKeyDown br ev p) /\
      inert (Wrap.document p) (Wrap.document (Wrap.handleKeyDown br ev p))) /\
  (forall br searchElement (p : Wrap.Page),
      cursor_lost p ->
      cursor_lost (Wrap.handleSearchResultsChanged br searchElement p) /\
      inert (Wrap.document p)
        (Wrap.document (Wrap.handleSearchResultsChanged br searchElement p))).
Proof.
  split; [|split].
  - intros br ev p Hin Hk He. unfold cursor_lost.
    assert (Hs : Wrap.size p = Wrap.Num 0) by (unfold Wrap.size; now rewrite He).
    destruct (move_key_cases ev Hk) as [Hn|[Hn Hp]].
    + rewrite wrap_next by assumption. rewrite Hs. apply js_rem_zero.
    + rewrite wrap_prev by assumption. rewrite Hs. apply js_rem_zero.
  - intros br ev p. apply wrap_key_lost.
  - intros br c p. apply wrap_refresh_lost.
Qed.

Lemma lost_cursor_stays_lost_witness :
  let p := Wrap.handleKeyDown (browser_at 5000) (press "j") (Wrap.init blank) in
  cursor_lost p /\
  cursor_lost
    (Wrap.handleKeyDown (browser_at 5200) (press "k")
       (Wrap.handleSearchResultsChanged (browser_at 5100) (container_of five_results) p)) /\
  inert (Wrap.document p)
    (Wrap.document
       (Wrap.handleSearchResultsChanged (browser_at 5100) (container_of five_results) p)).
Proof.
  intros p. destruct lost_cursor_stays_lost as (H0 & Hk & Hr).
  assert (Hp : cursor_lost p).
  { apply (H0 (browser_at 5000) (press "j") (Wrap.init blank)); reflexivity. }
  split; [exact Hp|]. split.
  - apply Hk. apply Hr. exact Hp.
  - apply Hr. exact Hp.
Defined.

(** ** Invariants of the running script *)

Section Reachable.

Context {Page : Type}.
Variable hk : Browser -> KeyboardEvent -> Page -> Page.
Variable hc : Browser -> HTMLDivElement -> Page -> Page.
Variable ce : string -> Page -> Page.
Variable P : Page -> Prop.
Hypothesis P_key : forall br ev p, P p -> P (hk br ev p).
Hypothesis P_report : forall msg p, P p -> P (ce msg p).

Lemma resume_invariant (s : Script) : P (page s) -> P (page (resume ce s)).
Proof.
  intros H. unfold resume. destruct (phase s); try exact H.
  destruct (promise (waiting s)) as [|[n|]]; simpl; auto.
Qed.

(** A property of the page that keys and reports keep holds after every
    run in which the container does not mutate. *)
Lemma run_invariant_no_refresh events (s : Script) :
  forallb (fun e => negb (is_container_mutation e)) events = true ->
  P (page s) -> P (page (run hk hc ce events s)).
Proof.
  unfold run. revert s.
  induction events as [|e es IH]; intros s Hev H; simpl in *; [exact H|].
  apply andb_prop in Hev as [He Hes]. apply IH; [exact Hes|].
  destruct e; simpl in *; try discriminate.
  - now apply resume_invariant.
  - destruct (phase s); simpl; auto.
Qed.

Hypothesis P_refresh : forall br c p, P p -> P (hc br c p).

Lemma run_invariant events (s : Script) :
  P (page s) -> P (page (run hk hc ce events s)).
Proof.
  unfold run. revert s.
  induction events as [|e es IH]; intros s H; simpl in *; [exact H|].
  apply IH. destruct e; simpl in *.
  - now apply resume_invariant.
  - destruct (phase s); simpl; auto.
  - destruct (phase s); simpl; auto.
Qed.

End Reachable.

Section Floors.

Lemma clamped_key_floor br ev p :
  -1 <= Clamped.index p -> -1 <= Clamped.index (Clamped.handleKeyDown br ev p).
Proof.
  intros H.
  destruct (inside_input br) eqn:Hin; [now rewrite clamped_inside_input|].
  destruct (move_key ev) eqn:Hm.
  { destruct (move_key_cases ev Hm) as [Hn|[Hn Hp]].
    - rewrite clamped_next by assumption. unfold Clamped.clamp. lia.
    - rewrite clamped_prev by assumption. unfold Clamped.clamp. lia. }
  destruct (activate_key ev) eqn:Ha.
  { rewrite clamped_activate by assumption. cbv zeta.
    destruct (js_index _ _) as [element|]; [|exact H].
    destruct (anchor element); [|exact H]. destruct (metaKey ev); exact H. }
  destruct (g_key ev) eqn:Hg.
  2:{ rewrite clamped_not_bound; [exact H|].
      unfold clamped_bound. now rewrite Hm, Ha, Hg. }
  rewrite clamped_g_press by assumption. cbv zeta.
  destruct (shiftKey ev); [|destruct (Date_now br <? _)].
  - rewrite clamped_highlight_index.
    change (Clamped.index (Clamped.set_selectedIndex ?i _)) with i.
    unfold Clamped.size. lia.
  - rewrite clamped_highlight_index.
    change (Clamped.index (Clamped.set_selectedIndex ?i _)) with i. lia.
  - exact H.
Qed.

Lemma js_rem_floor x n :
  0 <= x -> 0 <= n ->
  match Wrap.js_rem (Wrap.Num x) (Wrap.Num n) with
  | Wrap.Num i => 0 <= i
  | Wrap.NaN => True
  end.
Proof.
  intros Hx Hn. simpl. destruct (Z.eqb_spec n 0); [exact I|].
  apply Z.rem_nonneg; lia.
Qed.

Lemma wrap_key_floor br ev p : wrap_floor p -> wrap_floor (Wrap.handleKeyDown br ev p).
Proof.
  intros H.
  destruct (inside_input br) eqn:Hin; [now rewrite wrap_inside_input|].
  destruct (activate_key ev) eqn:Ha.
  { rewrite wrap_activate by assumption. cbv zeta.
    destruct (Wrap.at_number _ _) as [element|]; [|exact H].
    destruct (anchor element); [|exact H]. destruct (metaKey ev); exact H. }
  destruct (wrap_bound ev) eqn:Hb; [|now rewrite wrap_not_bound].
  unfold wrap_bound in Hb. rewrite Ha, orb_false_r in Hb.
  unfold wrap_floor in *.
  destruct (move_key_cases ev Hb) as [Hn|[Hn Hp]].
  - rewrite wrap_next by assumption.
    destruct (Wrap.index p) as [i|]; [|exact I].
    unfold Wrap.size. apply js_rem_floor; lia.
  - rewrite wrap_prev by assumption.
    destruct (Wrap.index p) as [i|]; [|exact I].
    unfold Wrap.size.
    destruct (Z.eqb_spec (Z.of_nat (length (Wrap.results p))) 0) as [E|E].
    + rewrite E. simpl. exact I.
    + apply js_rem_floor; lia.
Qed.

End Floors.

(** X17.  Whatever the page does from load on (any element found or not at
    the start, any sequence of document mutations, key presses and container
    mutations), [selectedIndex] never falls below [-1] in [content.js], and
    in the earlier revision it is [NaN] or not negative. *)
Theorem cursor_floor (events : list PageEvent) (alreadyExists : option Node)
    (d : Document) :
  -1 <= Clamped.index (page (clamped_run events (clamped_main alreadyExists d))) /\
  wrap_floor (page (wrap_run events (wrap_main alreadyExists d))).
Proof.
  split.
  - unfold clamped_run, clamped_main.
    apply (run_invariant Clamped.handleKeyDown Clamped.handleSearchResultsChanged
             (fun msg => Clamped.on_document (emit (console_error msg [])))
             (fun p => -1 <= Clamped.index p)).
    + intros br ev p. apply clamped_key_floor.
    + intros msg p H. exact H.
    + intros br c p H. now destruct (clamped_refresh_state br c p) as [-> _].
    + unfold main. apply resume_invariant; [intros msg p H; exact H|].
      simpl. unfold Clamped.index. simpl. lia.
  - unfold wrap_run, wrap_main.
    apply (run_invariant Wrap.handleKeyDown Wrap.handleSearchResultsChanged
             (fun msg => Wrap.on_document (emit (console_error msg [])))
             wrap_floor).
    + intros br ev p. apply wrap_key_floor.
    + intros msg p H. exact H.
    + intros br c p H. unfold wrap_floor in *.
      now destruct (wrap_refresh_state br c p) as [-> _].
    + unfold main. apply resume_invariant; [intros msg p H; exact H|].
      simpl. unfold wrap_floor, Wrap.index. simpl. lia.
Qed.

Section Idle.

Lemma inert_trans d1 d2 d3 : inert d1 d2 -> inert d2 d3 -> inert d1 d3.
Proof.
  intros (a1 & a2 & a3) (b1 & b2 & b3). repeat split; congruence.
Qed.

Lemma js_index_nil {A} i : js_index (@nil A) i = None.
Proof. unfold js_index. now destruct (0 <=? i). Qed.

Lemma clamped_key_empty br ev p :
  Clamped.results p = [] ->
  inert (Clamped.document p) (Clamped.document (Clamped.handleKeyDown br ev p)).
Proof.
  intros He. unfold Clamped.handleKeyDown.
  destruct (inside_input br); [apply inert_refl|].
  destruct (key_in ev ["j"; "ArrowDown"]).
  { rewrite clamped_highlight_empty by exact He. simpl.
    apply inert_emit; [apply inert_refl|reflexivity|reflexivity]. }
  destruct (key_in ev ["k"; "ArrowUp"]).
  { rewrite clamped_highlight_empty by exact He. simpl.
    apply inert_emit; [apply inert_refl|reflexivity|reflexivity]. }
  destruct (key_in ev [" "; "Enter"]).
  { change (Clamped.results (Clamped.on_document (emit preventDefault) p))
      with (Clamped.results p).
    rewrite He, js_index_nil. simpl.
    repeat (apply inert_emit; [|reflexivity|reflexivity]). apply inert_refl. }
  destruct (key_in ev ["G"; "g"]); [|apply inert_refl].
  destruct (metaKey ev || ctrlKey ev); [apply inert_refl|].
  cbv zeta. destruct (shiftKey ev); [|destruct (Date_now br <? _)].
  - rewrite clamped_highlight_empty by exact He. simpl.
    apply inert_emit; [apply inert_refl|reflexivity|reflexivity].
  - rewrite clamped_highlight_empty by exact He. simpl.
    apply inert_emit; [apply inert_refl|reflexivity|reflexivity].
  - simpl. apply inert_emit; [apply inert_refl|reflexivity|reflexivity].
Qed.

Lemma wrap_at_number_nil {A} n : Wrap.at_number (@nil A) n = None.
Proof. destruct n; [apply js_index_nil|reflexivity]. Qed.

Lemma wrap_key_empty br ev p :
  Wrap.results p = [] ->
  inert (Wrap.document p) (Wrap.document (Wrap.handleKeyDown br ev p)).
Proof.
  intros He. unfold Wrap.handleKeyDown.
  destruct (inside_input br); [apply inert_refl|].
  destruct (key_in ev ["j"; "ArrowDown"]).
  { rewrite wrap_highlight_lost.
    - simpl. repeat (apply inert_emit; [|reflexivity|reflexivity]). apply inert_refl.
    - change (Wrap.results (Wrap.set_selectedIndex _ (Wrap.on_document _ p)))
        with (Wrap.results p).
      rewrite He. apply wrap_at_number_nil. }
  destruct (key_in ev ["k"; "ArrowUp"]).
  { rewrite wrap_highlight_lost.
    - simpl. repeat (apply inert_emit; [|reflexivity|reflexivity]). apply inert_refl.
    - change (Wrap.results (Wrap.set_selectedIndex _ (Wrap.on_document _ p)))
        with (Wrap.results p).
      rewrite He. apply wrap_at_number_nil. }
  destruct (key_in ev [" "; "Enter"]); [|apply inert_refl].
  change (Wrap.results (Wrap.on_document (emit preventDefault) p))
    with (Wrap.results p).
  rewrite He, wrap_at_number_nil. simpl.
  repeat (apply inert_emit; [|reflexivity|reflexivity]). apply inert_refl.
Qed.

End Idle.

(** X18.  [main] does not run the extractor itself: the result list is
    filled by the first container mutation only.  Until then, whatever
    element was found and whatever keys are pressed, the list is empty and
    the script neither scrolls, nor marks or unmarks an element, nor
    navigates, even when the container already holds results at load.  Both
    revisions. *)
Theorem idle_until_container_mutates (events : list PageEvent)
    (alreadyExists : option Node) (d : Document) :
  forallb (fun e => negb (is_container_mutation e)) events = true ->
  clamped_idle d (page (clamped_run events (clamped_main alreadyExists d))) /\
  wrap_idle d (page (wrap_run events (wrap_main alreadyExists d))).
Proof.
  intros Hev. split.
  - unfold clamped_run, clamped_main.
    apply (run_invariant_no_refresh Clamped.handleKeyDown Clamped.handleSearchResultsChanged
             (fun msg => Clamped.on_document (emit (console_error msg [])))
             (clamped_idle d)); [| |exact Hev|].
    + intros br ev p [He Hi]. split; [now rewrite clamped_key_results|].
      eapply inert_trans; [exact Hi|now apply clamped_key_empty].
    + intros msg p [He Hi]. split; [exact He|].
      simpl. apply inert_emit; [exact Hi|reflexivity|reflexivity].
    + unfold main. apply resume_invariant.
      * intros msg p [He Hi]. split; [exact He|].
        simpl. apply inert_emit; [exact Hi|reflexivity|reflexivity].
      * split; [reflexivity|apply inert_refl].
  - unfold wrap_run, wrap_main.
    apply (run_invariant_no_refresh Wrap.handleKeyDown Wrap.handleSearchResultsChanged
             (fun msg => Wrap.on_document (emit (console_error msg [])))
             (wrap_idle d)); [| |exact Hev|].
    + intros br ev p [He Hi]. split; [now rewrite wrap_key_results|].
      eapply inert_trans; [exact Hi|now apply wrap_key_empty].
    + intros msg p [He Hi]. split; [exact He|].
      simpl. apply inert_emit; [exact Hi|reflexivity|reflexivity].
    + unfold main. apply resume_invariant.
      * intros msg p [He Hi]. split; [exact He|].
        simpl. apply inert_emit; [exact Hi|reflexivity|reflexivity].
      * split; [reflexivity|apply inert_refl].
Qed.

Lemma idle_until_container_mutates_witness :
  clamped_idle blank
    (page (clamped_run
             [KeyPressed (browser_at 5000) (press "j");
              KeyPressed (browser_at 5100) (shift_press "G");
              KeyPressed (browser_at 5200) (press "Enter")]
             (clamped_main (Some search_div) blank))) /\
  wrap_idle blank
    (page (wrap_run
             [DocumentMutated [[search_div]];
              KeyPressed (browser_at 5000) (press "j");
              KeyPressed (browser_at 5200) (press "Enter")]
             (wrap_main None blank))).
Proof.
  split.
  - apply (proj1 (idle_until_container_mutates
                    [KeyPressed (browser_at 5000) (press "j");
                     KeyPressed (browser_at 5100) (shift_press "G");
                     KeyPressed (browser_at 5200) (press "Enter")]
                    (Some search_div) blank eq_refl)).
  - apply (proj2 (idle_until_container_mutates
                    [DocumentMutated [[search_div]];
                     KeyPressed (browser_at 5000) (press "j");
                     KeyPressed (browser_at 5200) (press "Enter")]
                    None blank eq_refl)).
Defined.

(** ** Refreshing twice; what a refresh calls; [clamp] *)

(** X19.  A refresh is idempotent on the selection: run a second time on
    the same container (at any later moment), it leaves the result list, the
    cursor and the marked elements exactly as the first run left them.  Both
    revisions. *)
Theorem refresh_twice br br' searchElement :
  (forall p : Clamped.Page,
      same_selection
        (Clamped.handleSearchResultsChanged br' searchElement
           (Clamped.handleSearchResultsChanged br searchElement p))
        (Clamped.handleSearchResultsChanged br searchElement p)) /\
  (forall p : Wrap.Page,
      wrap_same_selection
        (Wrap.handleSearchResultsChanged br' searchElement
           (Wrap.handleSearchResultsChanged br searchElement p))
        (Wrap.handleSearchResultsChanged br searchElement p)).
Proof.
  split; intros p.
  - set (q := Clamped.handleSearchResultsChanged br searchElement p).
    destruct (clamped_refresh_state br searchElement p) as [Hi Hr]. fold q in Hi, Hr.
    assert (Hst : Clamped.state (clamped_refreshed searchElement q) = Clamped.state q).
    { unfold clamped_refreshed, Clamped.set_searchResults. simpl.
      change (Clamped.index (Clamped.on_document _ q)) with (Clamped.index q).
      rewrite <- Hr. unfold Clamped.results, Clamped.index. now destruct (Clamped.state q). }
    rewrite clamped_refresh_unfold. unfold same_selection.
    destruct (Clamped.shouldHighlight q) eqn:Hs.
    + rewrite clamped_highlight_state, clamped_highlight_marked. split; [exact Hst|].
      apply shouldHighlight_spec in Hs.
      unfold Clamped.size, Clamped.results, Clamped.index in *.
      rewrite Hst. rewrite js_index_past_end by exact Hs.
      now destruct (_ =? 0).
    + split; [exact Hst|reflexivity].
  - set (q := Wrap.handleSearchResultsChanged br searchElement p).
    destruct (wrap_refresh_state br searchElement p) as [Hi Hr]. fold q in Hi, Hr.
    assert (Hst : Wrap.state (wrap_refreshed searchElement q) = Wrap.state q).
    { unfold wrap_refreshed, Wrap.set_searchResults. simpl.
      change (Wrap.index (Wrap.on_document _ q)) with (Wrap.index q).
      rewrite <- Hr. unfold Wrap.results, Wrap.index. now destruct (Wrap.state q). }
    rewrite wrap_refresh_unfold. unfold wrap_same_selection.
    rewrite wrap_highlight_state, wrap_highlight_marked. split; [exact Hst|].
    unfold Wrap.results, Wrap.index. rewrite Hst.
    fold (Wrap.results q). fold (Wrap.index q).
    destruct (Wrap.at_number (Wrap.results q) (Wrap.index q)) as [el|] eqn:E;
      [|reflexivity].
    assert (Hq : marked (Wrap.document q) =
                 marked_after el (marked (Wrap.document p))).
    { unfold q at 1. rewrite wrap_refresh_unfold, wrap_highlight_marked.
      change (Wrap.results (wrap_refreshed searchElement p))
        with (fst (extractSearchResults searchElement)).
      change (Wrap.index (wrap_refreshed searchElement p)) with (Wrap.index p).
      rewrite <- Hr, <- Hi. now rewrite E. }
    change (marked (Wrap.document (wrap_refreshed searchElement q)))
      with (marked (Wrap.document q)).
    rewrite Hq. apply marked_after_twice.
Qed.

(** X20.  A refresh never navigates and never calls [preventDefault]: in
    both revisions it adds to the trace only console output, scrolling and
    class-list updates. *)
Theorem refresh_calls br searchElement :
  (forall p : Clamped.Page,
      continues_by is_highlight_call (Clamped.document p)
        (Clamped.document (Clamped.handleSearchResultsChanged br searchElement p)) /\
      navigations (trace (Clamped.document
                            (Clamped.handleSearchResultsChanged br searchElement p))) =
        navigations (trace (Clamped.document p))) /\
  (forall p : Wrap.Page,
      continues_by is_highlight_call (Wrap.document p)
        (Wrap.document (Wrap.handleSearchResultsChanged br searchElement p)) /\
      navigations (trace (Wrap.document
                            (Wrap.handleSearchResultsChanged br searchElement p))) =
        navigations (trace (Wrap.document p))).
Proof.
  assert (Hrep : forall es, forallb is_report es = true ->
                            forallb is_highlight_call es = true).
  { intros es H. apply forallb_forall. intros e He.
    rewrite forallb_forall in H. specialize (H e He). now destruct e. }
  split; intros p.
  - assert (Hc : continues_by is_highlight_call (Clamped.document p)
             (Clamped.document (Clamped.handleSearchResultsChanged br searchElement p))).
    { rewrite clamped_refresh_unfold.
      assert (H0 : continues_by is_highlight_call (Clamped.document p)
                     (Clamped.document (clamped_refreshed searchElement p))).
      { exists (snd (extractSearchResults searchElement)). split; [reflexivity|].
        apply Hrep, extract_reports. }
      destruct (Clamped.shouldHighlight p); [|exact H0].
      eapply continues_by_trans; [exact H0|apply clamped_highlight_continues]. }
    split; [exact Hc|].
    exact (continues_by_filter _ _ _ _ highlight_call_no_navigation Hc).
  - assert (Hc : continues_by is_highlight_call (Wrap.document p)
             (Wrap.document (Wrap.handleSearchResultsChanged br searchElement p))).
    { rewrite wrap_refresh_unfold.
      eapply continues_by_trans; [|apply wrap_highlight_continues].
      exists (snd (extractSearchResults searchElement)). split; [reflexivity|].
      apply Hrep, extract_reports. }
    split; [exact Hc|].
    exact (continues_by_filter _ _ _ _ highlight_call_no_navigation Hc).
Qed.

(** X21.  [clamp(value, min, max)]: with [min <= max] the result lies in
    [min .. max], is [value] itself when [value] lies there, [min] below and
    [max] above, and clamping twice changes nothing; with [max < min] (an
    empty list gives [max = -1]) the result is [min] for every [value]. *)
Theorem clamp_cases (value min max : Z) :
  (min <= max ->
     min <= Clamped.clamp value min max <= max /\
     (min <= value <= max -> Clamped.clamp value min max = value) /\
     (value < min -> Clamped.clamp value min max = min) /\
     (max < value -> Clamped.clamp value min max = max)) /\
  (max < min -> Clamped.clamp value min max = min) /\
  Clamped.clamp (Clamped.clamp value min max) min max = Clamped.clamp value min max.
Proof. unfold Clamped.clamp. lia. Qed.

Lemma clamp_cases_witness :
  Clamped.clamp 7 0 4 = 4 /\ Clamped.clamp 7 0 (-1) = 0.
Proof.
  destruct (clamp_cases 7 0 4) as [H _].
  destruct (clamp_cases 7 0 (-1)) as (_ & H' & _).
  split.
  - apply H; lia.
  - apply H'; lia.
Defined.
